(** * RAGAgent-frontend: the session-scoped chat exchange flow

    A shallow embedding of the logic of [src/App.tsx] (component [App]):
    [getOrCreateSessionId], [uploadPDF], [handleFileUpload],
    [handleSuggestion] and [sendMessage], together with the component state
    they read and update, followed by the properties of that flow.

    Modelling conventions.
    - A JavaScript string is its sequence of UTF-16 code units.
    - A JavaScript value of unknown shape (a parsed JSON body, [data.reply],
      [data.pdf_path]) is a [jsval].
    - React state is a record; every [setX] call is a function on that record.
      A handler reads the state of the render in which it was created and its
      queued updates are applied before the next event is handled.
    - An [await fetch(...)] splits its handler in two: the part before the
      call, which also records the request and the suspended continuation, and
      the part after it, which runs when the request settles. *)

From Stdlib Require Import ZArith NArith List String Ascii DecimalString.
From Stdlib Require Import Floats.SpecFloat.
From Stdlib Require DecimalPos DecimalZ.
From stdpp Require Import gmap list strings.

Local Open Scope Z_scope.
Local Open Scope nat_scope.

(** ** JavaScript strings and values *)

Set Warnings "-register-all".

Definition jsstring := list N.

(** An ASCII literal of the source as a sequence of code units. *)
Definition lit (s : string) : jsstring :=
  (fun c => N_of_ascii c) <$> list_ascii_of_string s.

Inductive jsval :=
| JUndefined
| JNull
| JBool (b : bool)
| JNum (x : spec_float)
| JStr (s : jsstring)
| JArr (items : list jsval)
| JObj (fields : list (jsstring * jsval)).

(** ECMAScript [ToBoolean]: what [!v] and [v || w] test. *)
Definition to_boolean (v : jsval) : bool :=
  match v with
  | JUndefined | JNull => false
  | JBool b => b
  | JNum (S754_zero _) | JNum S754_nan => false
  | JNum _ => true
  | JStr [] => false
  | JStr (_ :: _) => true
  | JArr _ | JObj _ => true
  end.

(** [v || w] *)
Definition js_or (v w : jsval) : jsval := if to_boolean v then v else w.

(** Own property lookup in a parsed object, whose fields are listed with one
    binding per key. *)
Fixpoint obj_lookup (fields : list (jsstring * jsval)) (k : jsstring)
  : option jsval :=
  match fields with
  | [] => None
  | (k', v) :: rest => if decide (k' = k) then Some v else obj_lookup rest k
  end.

(** [data.k] for a key [k] that no prototype defines: [None] is the
    [TypeError] raised on [null] and [undefined]; a primitive, an array, or an
    object without the field gives [undefined]. *)
Definition get (data : jsval) (k : jsstring) : option jsval :=
  match data with
  | JUndefined | JNull => None
  | JObj fields => Some (default JUndefined (obj_lookup fields k))
  | _ => Some JUndefined
  end.

(** The code units removed by [String.prototype.trim]: WhiteSpace and
    LineTerminator of ECMAScript. *)
Definition is_trimmed_unit (c : N) : bool :=
  ((9 <=? c) && (c <=? 13) || (c =? 32) || (c =? 160) || (c =? 5760)
   || (8192 <=? c) && (c <=? 8202) || (c =? 8232) || (c =? 8233)
   || (c =? 8239) || (c =? 8287) || (c =? 12288) || (c =? 65279))%N.

Fixpoint trimStart (s : jsstring) : jsstring :=
  match s with
  | [] => []
  | c :: rest => if is_trimmed_unit c then trimStart rest else s
  end.

Definition trim (s : jsstring) : jsstring :=
  rev (trimStart (rev (trimStart s))).

(** [n.toString()] for an integral Number below 1e21 in magnitude, as every
    time value is: its decimal digits. *)
Definition Number_toString (n : Z) : jsstring :=
  lit (NilZero.string_of_int (Z.to_int n)).

(** ** Session Identity Provider *)

(** [localStorage]: the stored items and the [setItem] calls made so far,
    oldest first. *)
Record LocalStorage := {
  items : gmap jsstring jsstring;
  setItem_calls : list (jsstring * jsstring)
}.

Definition getItem (k : jsstring) (ls : LocalStorage) : jsval :=
  match items ls !! k with
  | Some v => JStr v
  | None => JNull
  end.

Definition setItem (k v : jsstring) (ls : LocalStorage) : LocalStorage :=
  {| items := <[k := v]> (items ls);
     setItem_calls := setItem_calls ls ++ [(k, v)] |}.

Definition hex_digit (d : N) : N :=
  (if d <? 10 then 48 + d else 87 + d)%N.

Definition hex_byte (b : N) : jsstring :=
  [hex_digit (b / 16 mod 16); hex_digit (b mod 16)]%N.

(** [crypto.randomUUID()]: a version 4 UUID printed from 128 bits of entropy,
    the version and variant bits overwritten. *)
Definition randomUUID (entropy : N) : jsstring :=
  let byte (i : N) := (N.shiftr entropy (8 * (15 - i)) mod 256)%N in
  let b6 := N.lor (N.land (byte 6%N) 15) 64 in
  let b8 := N.lor (N.land (byte 8%N) 63) 128 in
  let dash := 45%N in
  hex_byte (byte 0%N) ++ hex_byte (byte 1%N) ++ hex_byte (byte 2%N)
  ++ hex_byte (byte 3%N) ++ [dash]
  ++ hex_byte (byte 4%N) ++ hex_byte (byte 5%N) ++ [dash]
  ++ hex_byte b6 ++ hex_byte (byte 7%N) ++ [dash]
  ++ hex_byte b8 ++ hex_byte (byte 9%N) ++ [dash]
  ++ hex_byte (byte 10%N) ++ hex_byte (byte 11%N) ++ hex_byte (byte 12%N)
  ++ hex_byte (byte 13%N) ++ hex_byte (byte 14%N) ++ hex_byte (byte 15%N).

Definition chat_session_id : jsstring := lit "chat_session_id".

(** [getOrCreateSessionId]; [entropy] is what [crypto.randomUUID] draws if it
    is called. The result is the returned value and the storage afterwards. *)
Definition getOrCreateSessionId (entropy : N) (ls : LocalStorage)
  : jsval * LocalStorage :=
  let sessionId := getItem chat_session_id ls in
  if negb (to_boolean sessionId) then
    let sessionId := randomUUID entropy in
    (JStr sessionId, setItem chat_session_id sessionId ls)
  else (sessionId, ls).

(** Calling [getOrCreateSessionId] once per element of [entropies], in order:
    the values returned and the storage at the end. *)
Fixpoint getOrCreateSessionId_calls (entropies : list N) (ls : LocalStorage)
  : list jsval * LocalStorage :=
  match entropies with
  | [] => ([], ls)
  | e :: rest =>
      let '(v, ls1) := getOrCreateSessionId e ls in
      let '(vs, ls2) := getOrCreateSessionId_calls rest ls1 in
      (v :: vs, ls2)
  end.

(** ** Component state *)

(** [source?: 'pdf' | 'web' | 'llm'] *)
Inductive mode := pdf | web | llm.

(** [type: 'user' | 'assistant'] *)
Inductive role := user | assistant.

(** An element of [messages]. [msg_id] and [msg_type] are the fields [id] and
    [type]; [timestamp] is the time value of the [Date]. *)
Record Message := {
  msg_id : jsstring;
  msg_type : role;
  content : jsval;
  timestamp : Z;
  source : option mode
}.

(** What the code reads of a [File]: [file.name] and [file.type]. *)
Record File := {
  file_name : jsstring;
  file_type : jsstring
}.

(** The argument of a [toast] call; [destructive] is
    [variant: 'destructive']. *)
Record Toast := {
  title : jsstring;
  description : option jsstring;
  destructive : bool
}.

(** The object that [sendMessage] serialises as the body of the chat
    request. *)
Record Payload := {
  session_id : jsval;
  User_message : jsstring;
  pdf_path : jsval
}.

(** A [fetch] call: [POST /chat] with a JSON payload, or [POST /upload_pdf]
    with the file as the multipart field [file]. *)
Inductive Request :=
| ChatRequest (payload : Payload)
| UploadRequest (file : File).

(** A handler suspended at [await fetch(...)], with what its closure still
    uses: [sendMessage] its [messageType], [handleFileUpload] its [file]. *)
Inductive Continuation :=
| AwaitChat (messageType : option mode)
| AwaitUpload (file : File).

(** The state of [App]: the [useState] cells, the toasts shown so far, the
    requests issued so far (a request's identifier is its position) and the
    handlers still waiting for one of them. *)
Record App := {
  message : jsstring;
  isLoading : bool;
  messages : list Message;
  selectedFile : option File;
  pdfPath : jsval;
  messageType : option mode;
  sessionId : jsval;
  toasts : list Toast;
  network : list Request;
  inflight : gmap nat Continuation
}.

Definition setMessage (v : jsstring) (a : App) : App :=
  {| message := v; isLoading := isLoading a; messages := messages a;
     selectedFile := selectedFile a; pdfPath := pdfPath a;
     messageType := messageType a; sessionId := sessionId a;
     toasts := toasts a; network := network a; inflight := inflight a |}.

Definition setIsLoading (v : bool) (a : App) : App :=
  {| message := message a; isLoading := v; messages := messages a;
     selectedFile := selectedFile a; pdfPath := pdfPath a;
     messageType := messageType a; sessionId := sessionId a;
     toasts := toasts a; network := network a; inflight := inflight a |}.

(** [setMessages(prev => ...)] *)
Definition setMessages (f : list Message -> list Message) (a : App) : App :=
  {| message := message a; isLoading := isLoading a;
     messages := f (messages a);
     selectedFile := selectedFile a; pdfPath := pdfPath a;
     messageType := messageType a; sessionId := sessionId a;
     toasts := toasts a; network := network a; inflight := inflight a |}.

Definition setSelectedFile (v : option File) (a : App) : App :=
  {| message := message a; isLoading := isLoading a; messages := messages a;
     selectedFile := v; pdfPath := pdfPath a;
     messageType := messageType a; sessionId := sessionId a;
     toasts := toasts a; network := network a; inflight := inflight a |}.

Definition setPdfPath (v : jsval) (a : App) : App :=
  {| message := message a; isLoading := isLoading a; messages := messages a;
     selectedFile := selectedFile a; pdfPath := v;
     messageType := messageType a; sessionId := sessionId a;
     toasts := toasts a; network := network a; inflight := inflight a |}.

Definition setMessageType (v : option mode) (a : App) : App :=
  {| message := message a; isLoading := isLoading a; messages := messages a;
     selectedFile := selectedFile a; pdfPath := pdfPath a;
     messageType := v; sessionId := sessionId a;
     toasts := toasts a; network := network a; inflight := inflight a |}.

Definition toast (t : Toast) (a : App) : App :=
  {| message := message a; isLoading := isLoading a; messages := messages a;
     selectedFile := selectedFile a; pdfPath := pdfPath a;
     messageType := messageType a; sessionId := sessionId a;
     toasts := toasts a ++ [t]; network := network a;
     inflight := inflight a |}.

(** [await fetch(...)]: the request goes out and the rest of the handler
    waits for it. *)
Definition fetch (r : Request) (k : Continuation) (a : App) : App :=
  {| message := message a; isLoading := isLoading a; messages := messages a;
     selectedFile := selectedFile a; pdfPath := pdfPath a;
     messageType := messageType a; sessionId := sessionId a;
     toasts := toasts a; network := network a ++ [r];
     inflight := <[length (network a) := k]> (inflight a) |}.

(** The awaited request has settled: its handler is no longer waiting. *)
Definition resume (rid : nat) (a : App) : App :=
  {| message := message a; isLoading := isLoading a; messages := messages a;
     selectedFile := selectedFile a; pdfPath := pdfPath a;
     messageType := messageType a; sessionId := sessionId a;
     toasts := toasts a; network := network a;
     inflight := delete rid (inflight a) |}.

(** The first render: the initial values of the [useState] calls. *)
Definition mount (sessionId : jsval) : App :=
  {| message := []; isLoading := false; messages := [];
     selectedFile := None; pdfPath := JNull; messageType := None;
     sessionId := sessionId; toasts := []; network := [];
     inflight := ∅ |}.

(** ** What the network answers *)

(** A [Response]: its status and what [res.json()] gives, [None] when the
    body is not JSON and [res.json()] rejects. *)
Record Response := {
  status : N;
  body : option jsval
}.

(** [res.ok]: the status is in the range 200 to 299. *)
Definition ok (res : Response) : bool :=
  ((200 <=? status res) && (status res <=? 299))%N.

(** How a [fetch] promise settles: it rejects on a network error and resolves
    with a response whatever the status. *)
Inductive FetchResult :=
| NetworkError
| Resolved (res : Response).

(** ** Attachment Uploader *)

(** [uploadPDF] after its request has settled: the value the returned promise
    resolves with, or [None] when it rejects (the [fetch] rejected, the status
    is not a success and the function throws, the body is not JSON, or
    [data] is [null]). *)
Definition uploadPDF_settled (r : FetchResult) : option jsval :=
  match r with
  | NetworkError => None
  | Resolved res =>
      if negb (ok res) then None
      else match body res with
           | None => None
           | Some data => get data (lit "pdf_path")
           end
  end.

Definition toast_invalid_file_type : Toast :=
  {| title := lit "Invalid file type";
     description := Some (lit "Please upload a PDF file");
     destructive := true |}.

Definition toast_upload_failed : Toast :=
  {| title := lit "PDF upload failed"; description := None;
     destructive := true |}.

Definition toast_uploaded (file : File) : Toast :=
  {| title := lit "PDF uploaded";
     description := Some (file_name file ++ lit " uploaded & ready.");
     destructive := false |}.

(** [handleFileUpload] up to [await uploadPDF(file)]; [file] is
    [event.target.files?.[0]], [None] when it is [undefined]. *)
Definition handleFileUpload (file : option File) (a : App) : App :=
  match file with
  | Some f =>
      if decide (file_type f = lit "application/pdf") then
        let a := setSelectedFile (Some f) a in
        let a := setMessageType (Some pdf) a in
        fetch (UploadRequest f) (AwaitUpload f) a
      else toast toast_invalid_file_type a
  | None => toast toast_invalid_file_type a
  end.

(** [handleFileUpload] from the point where [uploadPDF(file)] has settled:
    the [try] branch when it resolved, the [catch] branch when it rejected. *)
Definition handleFileUpload_settled (file : File) (r : FetchResult) (a : App)
  : App :=
  match uploadPDF_settled r with
  | Some uploadedPath =>
      let a := setPdfPath uploadedPath a in
      toast (toast_uploaded file) a
  | None =>
      let a := toast toast_upload_failed a in
      setPdfPath JNull a
  end.

(** [handleSuggestion]: for ['pdf'] it only opens the file picker. *)
Definition handleSuggestion (t : mode) (a : App) : App :=
  match t with
  | pdf => a
  | _ => setMessageType (Some t) a
  end.

(** ** Chat Dispatcher *)

Definition toast_send_failed : Toast :=
  {| title := lit "Failed to send message"; description := None;
     destructive := true |}.

(** The guard of [sendMessage], also the [disabled] attribute of the send
    button: [!message.trim() && !pdfPath]. *)
Definition nothing_to_send (a : App) : bool :=
  negb (to_boolean (JStr (trim (message a)))) && negb (to_boolean (pdfPath a)).

Definition sendMessage_payload (a : App) : Payload :=
  {| session_id := sessionId a;
     User_message := message a;
     pdf_path := pdfPath a |}.

(** The Message that [sendMessage] appends before the request; [now] is the
    value of [Date.now()], [date] the time value of [new Date()]. *)
Definition user_message (now date : Z) (a : App) : Message :=
  {| msg_id := Number_toString now;
     msg_type := user;
     content := JStr (message a);
     timestamp := date;
     source := messageType a |}.

(** The Message appended after the response, for [data.reply] equal to
    [reply] and the [messageType] of the render that sent the request. *)
Definition assistant_message (now date : Z) (reply : jsval)
    (messageType : option mode) : Message :=
  {| msg_id := Number_toString (now + 1);
     msg_type := assistant;
     content := js_or reply (JStr (lit "No response received."));
     timestamp := date;
     source := messageType |}.

(** [sendMessage] up to [await fetch(...)]. *)
Definition sendMessage (now date : Z) (a : App) : App :=
  if nothing_to_send a then a
  else
    let s := setIsLoading true a in
    let payload := sendMessage_payload a in
    let s := setMessages (fun prev => prev ++ [user_message now date a]) s in
    let s := setMessage [] s in
    let s := setMessageType None s in
    fetch (ChatRequest payload) (AwaitChat (messageType a)) s.

(** What a handler leaves behind: the next render, or an exception thrown
    while React computes it. *)
Inductive Outcome :=
| Rendered (a : App)
| RenderError.

(** [sendMessage] from the point where its [fetch] has settled. A rejected
    [fetch] and a rejected [res.json()] reach the [catch] branch. Otherwise the
    updater given to [setMessages] reads [data.reply]; on [data = null] that
    throws when React runs the updater, outside the [try]. The status of the
    response is not read. *)
Definition sendMessage_settled (messageType : option mode) (r : FetchResult)
    (now date : Z) (a : App) : Outcome :=
  match r with
  | NetworkError => Rendered (setIsLoading false (toast toast_send_failed a))
  | Resolved res =>
      match body res with
      | None => Rendered (setIsLoading false (toast toast_send_failed a))
      | Some data =>
          match get data (lit "reply") with
          | None => RenderError
          | Some reply =>
              let s :=
                setMessages
                  (fun prev =>
                     prev ++ [assistant_message now date reply messageType]) a
              in
              Rendered (setIsLoading false s)
          end
      end
  end.

(** ** The event loop *)

(** What can happen to the mounted component: the input events that its JSX
    wires to handlers, and the completion of a request. *)
Inductive Event :=
| InputChange (value : jsstring)
| SuggestionClick (t : mode)
| FileChange (file : option File)
| RemoveFile
| Send (now date : Z)
| ChatSettled (rid : nat) (r : FetchResult) (now date : Z)
| UploadSettled (rid : nat) (r : FetchResult).

(** Whether React accepts [v] as a child of an element: a string or a number
    is rendered as text, a boolean, [null] or [undefined] as nothing, an array
    element by element; a plain object is refused and the render throws. *)
Fixpoint renderable (v : jsval) : bool :=
  match v with
  | JObj _ => false
  | JArr items => forallb renderable items
  | _ => true
  end.

(** The render that follows a change of [pdfPath]: the top bar has the child
    [SessionID-{pdfPath}]. Only the completion of an upload calls
    [setPdfPath], so that is where [step] asks for it. *)
Definition render (a : App) : Outcome :=
  if renderable (pdfPath a) then Rendered a else RenderError.

Definition step (e : Event) (a : App) : Outcome :=
  match e with
  | InputChange value => Rendered (setMessage value a)
  | SuggestionClick t => Rendered (handleSuggestion t a)
  | FileChange file => Rendered (handleFileUpload file a)
  | RemoveFile => Rendered (setSelectedFile None a)
  | Send now date => Rendered (sendMessage now date a)
  | ChatSettled rid r now date =>
      match inflight a !! rid with
      | Some (AwaitChat messageType) =>
          sendMessage_settled messageType r now date (resume rid a)
      | _ => Rendered a
      end
  | UploadSettled rid r =>
      match inflight a !! rid with
      | Some (AwaitUpload file) =>
          render (handleFileUpload_settled file r (resume rid a))
      | _ => Rendered a
      end
  end.

Fixpoint run (es : list Event) (a : App) : Outcome :=
  match es with
  | [] => Rendered a
  | e :: rest =>
      match step e a with
      | Rendered a' => run rest a'
      | RenderError => RenderError
      end
  end.

(** The events after which the Attachment Reference may differ: the
    completion of an upload. *)
Definition upload_settles (e : Event) : bool :=
  match e with
  | UploadSettled _ _ => true
  | _ => false
  end.

(** The state an outcome rendered, [a] when it rendered none. *)
Definition rendered_or (a : App) (o : Outcome) : App :=
  match o with
  | Rendered s => s
  | RenderError => a
  end.

(** ** Scenarios *)

Definition fresh_storage : LocalStorage :=
  {| items := ∅; setItem_calls := [] |}.

(** A freshly mounted component in a browser profile that had no session. *)
Definition mounted : App :=
  mount (getOrCreateSessionId 0 fresh_storage).1.

Definition notes_pdf : File :=
  {| file_name := lit "notes.pdf"; file_type := lit "application/pdf" |}.

Definition photo_png : File :=
  {| file_name := lit "photo.png"; file_type := lit "image/png" |}.

(** The chat endpoint answers with an error status and a JSON error body. *)
Definition chat_http_500 : Response :=
  {| status := 500;
     body := Some (JObj [(lit "detail", JStr (lit "Internal Server Error"))])
  |}.

(** The chat endpoint answers [{}]. *)
Definition chat_http_200_empty : Response :=
  {| status := 200; body := Some (JObj []) |}.

(** The chat endpoint answers [{"reply": "Hello"}]. *)
Definition chat_http_200_hello : Response :=
  {| status := 200; body := Some (JObj [(lit "reply", JStr (lit "Hello"))]) |}.


(** The upload endpoint answers [{"pdf_path": "/tmp/abc123.pdf"}]. *)
Definition upload_http_200 : Response :=
  {| status := 200;
     body := Some (JObj [(lit "pdf_path", JStr (lit "/tmp/abc123.pdf"))]) |}.

(** The upload endpoint answers [{"pdf_path": {"path": "/tmp/abc123.pdf"}}]. *)
Definition upload_http_200_object : Response :=
  {| status := 200;
     body :=
       Some (JObj [(lit "pdf_path",
                    JObj [(lit "path", JStr (lit "/tmp/abc123.pdf"))])]) |}.

(** The user has typed [hi]. *)
Definition typed_hi : App := setMessage (lit "hi") mounted.

(** The user has typed blanks only, after choosing the web mode. *)
Definition typed_blanks : App :=
  setMessage (lit "   ") (setMessageType (Some web) mounted).

(** [notes.pdf] was selected and its upload succeeded. *)
Definition uploaded : App :=
  rendered_or mounted
    (run [FileChange (Some notes_pdf);
          UploadSettled 0 (Resolved upload_http_200)] mounted).


(** [hi] was sent at time 1000 and the chat endpoint answered 500 with a JSON
    body, at time 1500. *)
Definition sent_hi_got_500 : App :=
  rendered_or mounted
    (run [Send 1000 1000;
          ChatSettled 0 (Resolved chat_http_500) 1500 1500] typed_hi).

(** [hi] was sent at time 1000 and answered at time 1500; one millisecond
    later the user sent [ok]. *)
Definition two_exchanges : App :=
  rendered_or mounted
    (run [Send 1000 1000;
          ChatSettled 0 (Resolved chat_http_200_hello) 1500 1500;
          InputChange (lit "ok");
          Send 1501 1501] typed_hi).

(** After the successful upload the user has typed a question. *)
Definition asked_summary : App :=
  setMessage (lit "What is the summary?") uploaded.

(** The question was sent and answered, and a second one typed. *)
Definition asked_again : App :=
  rendered_or mounted
    (run [ChatSettled 1 (Resolved chat_http_200_hello) 1500 1500;
          InputChange (lit "And the conclusion?")]
       (sendMessage 1000 1000 asked_summary)).

(** [notes.pdf] was selected and, its upload still pending, [hi] was typed. *)
Definition typed_hi_while_uploading : App :=
  setMessage (lit "hi") (handleFileUpload (Some notes_pdf) mounted).

(** That [hi] was sent, then the upload succeeded and [ok] was typed. *)
Definition typed_ok_after_upload : App :=
  rendered_or mounted
    (run [UploadSettled 0 (Resolved upload_http_200); InputChange (lit "ok")]
       (sendMessage 1000 1000 typed_hi_while_uploading)).

(** [hi] was sent, then [ok] was typed and sent before the first answer. *)
Definition two_pending : App :=
  rendered_or mounted
    (run [InputChange (lit "ok"); Send 1200 1200]
       (sendMessage 1000 1000 typed_hi)).

(** ** What the component shows *)

(** The send button's [disabled={!message.trim() && !pdfPath}]. *)
Definition send_disabled (a : App) : bool :=
  negb (to_boolean (JStr (trim (message a)))) && negb (to_boolean (pdfPath a)).

(** Whether the [...] bubble is rendered: [isLoading && ...] sits inside the
    block guarded by [messages.length > 0 && ...]. *)
Definition loading_bubble_shown (a : App) : bool :=
  (0 <? length (messages a)) && isLoading a.

(** The text input's
    [onKeyDown={e => e.key === 'Enter' && !e.shiftKey && sendMessage()}]. *)
Definition onKeyDown (key : jsstring) (shiftKey : bool) (now date : Z)
    (a : App) : App :=
  if decide (key = lit "Enter") then
    if negb shiftKey then sendMessage now date a else a
  else a.

(** ** Bookkeeping over the store and the requests *)

(** The payloads of the chat requests among [reqs], in order. *)
Fixpoint chat_payloads (reqs : list Request) : list Payload :=
  match reqs with
  | [] => []
  | ChatRequest p :: rest => p :: chat_payloads rest
  | UploadRequest _ :: rest => chat_payloads rest
  end.

(** The contents of the Messages of role [r] among [ms], in order. *)
Fixpoint contents_of (r : role) (ms : list Message) : list jsval :=
  match ms with
  | [] => []
  | m :: rest =>
      match r, msg_type m with
      | user, user | assistant, assistant => content m :: contents_of r rest
      | _, _ => contents_of r rest
      end
  end.

(** Some [sendMessage] call is waiting for its answer. *)
Definition awaits_chat (a : App) : Prop :=
  ∃ rid mt, inflight a !! rid = Some (AwaitChat mt).

(** Every waiting handler waits for a request that was issued. *)
Definition inflight_issued (a : App) : Prop :=
  ∀ rid, is_Some (inflight a !! rid) → rid < length (network a).

(** The loading flag is up only while some chat request is awaited. *)
Definition loading_justified (a : App) : Prop :=
  inflight_issued a ∧ (isLoading a = true → awaits_chat a).

#[global] Instance Toast_eq_dec : EqDecision Toast.
Proof. solve_decision. Defined.

(** How many of the notices [ts] report a failed send. *)
Fixpoint count_failed_sends (ts : list Toast) : nat :=
  match ts with
  | [] => 0
  | t :: rest =>
      (if decide (t = toast_send_failed) then 1 else 0)
      + count_failed_sends rest
  end.

(** How many of the requests numbered below [n] a [sendMessage] call is
    still waiting for. *)
Fixpoint count_awaited_chats (m : gmap nat Continuation) (n : nat) : nat :=
  match n with
  | 0 => 0
  | S k =>
      count_awaited_chats m k
      + match m !! k with
        | Some (AwaitChat _) => 1
        | _ => 0
        end
  end.

(** Every chat request is awaited, answered by an assistant Message or
    reported as failed. *)
Definition exchanges_accounted (a : App) : Prop :=
  inflight_issued a
  ∧ length (contents_of assistant (messages a))
    + count_awaited_chats (inflight a) (length (network a))
    + count_failed_sends (toasts a)
    = length (chat_payloads (network a)).

(** The events that set the Response Mode: a click on a suggestion tile and a
    file selection. *)
Definition mode_event (e : Event) : bool :=
  match e with
  | SuggestionClick _ | FileChange _ => true
  | _ => false
  end.

(** Mounting [App]: [useState(getOrCreateSessionId())] on the first render. *)
Definition mount_with (entropy : N) (ls : LocalStorage) : App * LocalStorage :=
  let '(sid, ls') := getOrCreateSessionId entropy ls in (mount sid, ls').

(** ** The variant without a backend: component [Index]

    The second component of [src/App.tsx] keeps the selected file on the
    client and answers every message itself, from a [setTimeout] callback.
    All its timers have the same delay, so they fire in the order in which
    they were set: the pending callbacks form a queue. *)

Module Index.

(** What a callback given to [setTimeout] uses of the render that set it. *)
Record Callback := {
  cb_messageType : option mode;
  cb_message : jsstring;
  cb_selectedFile : option File
}.

Record State := {
  message : jsstring;
  isLoading : bool;
  messages : list Message;
  selectedFile : option File;
  toasts : list Toast;
  timers : list Callback
}.

Definition setMessage (v : jsstring) (s : State) : State :=
  {| message := v; isLoading := isLoading s; messages := messages s;
     selectedFile := selectedFile s; toasts := toasts s;
     timers := timers s |}.

Definition setIsLoading (v : bool) (s : State) : State :=
  {| message := message s; isLoading := v; messages := messages s;
     selectedFile := selectedFile s; toasts := toasts s;
     timers := timers s |}.

Definition setMessages (f : list Message -> list Message) (s : State)
  : State :=
  {| message := message s; isLoading := isLoading s;
     messages := f (messages s);
     selectedFile := selectedFile s; toasts := toasts s;
     timers := timers s |}.

Definition setSelectedFile (v : option File) (s : State) : State :=
  {| message := message s; isLoading := isLoading s; messages := messages s;
     selectedFile := v; toasts := toasts s; timers := timers s |}.

Definition toast (t : Toast) (s : State) : State :=
  {| message := message s; isLoading := isLoading s; messages := messages s;
     selectedFile := selectedFile s; toasts := toasts s ++ [t];
     timers := timers s |}.

(** [setTimeout(() => ..., 1200)] *)
Definition setTimeout (cb : Callback) (s : State) : State :=
  {| message := message s; isLoading := isLoading s; messages := messages s;
     selectedFile := selectedFile s; toasts := toasts s;
     timers := timers s ++ [cb] |}.

Definition mount : State :=
  {| message := []; isLoading := false; messages := [];
     selectedFile := None; toasts := []; timers := [] |}.

Definition toast_uploaded (file : File) : Toast :=
  {| title := lit "PDF uploaded successfully";
     description := Some (file_name file ++ lit " is ready for analysis");
     destructive := false |}.

Definition handleFileUpload (file : option File) (s : State) : State :=
  match file with
  | Some f =>
      if decide (file_type f = lit "application/pdf") then
        let s := setSelectedFile (Some f) s in
        toast (toast_uploaded f) s
      else toast toast_invalid_file_type s
  | None => toast toast_invalid_file_type s
  end.

(** The guard of [sendMessage] and the [disabled] attribute of the button:
    [!message.trim() && !selectedFile]. *)
Definition nothing_to_send (s : State) : bool :=
  negb (to_boolean (JStr (trim (message s))))
  && match selectedFile s with Some _ => false | None => true end.

Definition mode_name (t : mode) : jsstring :=
  match t with
  | pdf => lit "pdf"
  | web => lit "web"
  | llm => lit "llm"
  end.

(** The template literal of the simulated answer; code unit 34 is the double
    quote. *)
Definition reply_text (cb : Callback) : jsstring :=
  lit "Here's a response ("
  ++ match cb_messageType cb with
     | Some t => mode_name t
     | None => lit "normal"
     end
  ++ lit ") to " ++ [34%N] ++ cb_message cb ++ [34%N]
  ++ match cb_selectedFile cb with
     | Some f => lit " with file " ++ file_name f
     | None => []
     end
  ++ lit ".".

Definition sendMessage (messageType : option mode) (now date : Z)
    (s : State) : State :=
  if nothing_to_send s then s
  else
    let newMessage :=
      {| msg_id := Number_toString now;
         msg_type := user;
         content := JStr (message s);
         timestamp := date;
         source := messageType |} in
    let s' := setMessages (fun prev => prev ++ [newMessage]) s in
    let s' := setIsLoading true s' in
    let s' :=
      setTimeout {| cb_messageType := messageType;
                    cb_message := message s;
                    cb_selectedFile := selectedFile s |} s' in
    let s' := setMessage [] s' in
    setSelectedFile None s'.

(** The callback given to [setTimeout], when it runs. *)
Definition timeout (cb : Callback) (now date : Z) (s : State) : State :=
  let s :=
    setMessages
      (fun prev =>
         prev ++ [ {| msg_id := Number_toString (now + 1);
                      msg_type := assistant;
                      content := JStr (reply_text cb);
                      timestamp := date;
                      source := cb_messageType cb |} ]) s in
  setIsLoading false s.

(** The send button and the Enter key both call
    [sendMessage(selectedFile ? 'pdf' : undefined)]. *)
Definition send_argument (s : State) : option mode :=
  match selectedFile s with
  | Some _ => Some pdf
  | None => None
  end.

Inductive Event :=
| InputChange (value : jsstring)
| FileChange (file : option File)
| RemoveFile
| Send (now date : Z)
| TimerFired (now date : Z).

Definition step (e : Event) (s : State) : State :=
  match e with
  | InputChange value => setMessage value s
  | FileChange file => handleFileUpload file s
  | RemoveFile => setSelectedFile None s
  | Send now date => sendMessage (send_argument s) now date s
  | TimerFired now date =>
      match timers s with
      | [] => s
      | cb :: rest =>
          timeout cb now date
            {| message := message s; isLoading := isLoading s;
               messages := messages s; selectedFile := selectedFile s;
               toasts := toasts s; timers := rest |}
      end
  end.

Definition run (es : list Event) (s : State) : State :=
  foldl (fun s e => step e s) s es.

(** The callback that the send of a user Message sets, as far as the Message
    records it, and the answer that callback gives. *)
Definition answers (cb : Callback) (u r : Message) : Prop :=
  msg_type u = user ∧ content u = JStr (cb_message cb)
  ∧ source u = cb_messageType cb
  ∧ msg_type r = assistant ∧ content r = JStr (reply_text cb)
  ∧ source r = cb_messageType cb.

End Index.

(** ** Properties of the JavaScript primitives *)

Lemma to_boolean_nonempty_string (s : jsstring) :
  s ≠ [] → to_boolean (JStr s) = true.
Proof. by destruct s. Qed.

Lemma js_or_falsy (v w : jsval) : to_boolean v = false → js_or v w = w.
Proof. unfold js_or. by intros ->. Qed.

Lemma randomUUID_length (entropy : N) : length (randomUUID entropy) = 36.
Proof. reflexivity. Qed.

Lemma randomUUID_truthy (entropy : N) :
  to_boolean (JStr (randomUUID entropy)) = true.
Proof.
  apply to_boolean_nonempty_string. intros E.
  pose proof (randomUUID_length entropy) as L. by rewrite E in L.
Qed.

(** ** The store is append-only, requests are never forgotten *)

Lemma render_Rendered a s : render a = Rendered s → s = a.
Proof. unfold render. destruct (renderable (pdfPath a)); congruence. Qed.

Lemma sendMessage_messages now date a :
  messages (sendMessage now date a) =
  if nothing_to_send a then messages a
  else messages a ++ [user_message now date a].
Proof. unfold sendMessage. by destruct (nothing_to_send a). Qed.

Lemma sendMessage_network now date a :
  network (sendMessage now date a) =
  if nothing_to_send a then network a
  else network a ++ [ChatRequest (sendMessage_payload a)].
Proof. unfold sendMessage. by destruct (nothing_to_send a). Qed.

Lemma sendMessage_settled_messages mt r now date a s :
  sendMessage_settled mt r now date a = Rendered s →
  messages s = messages a ∨
  ∃ reply, messages s = messages a ++ [assistant_message now date reply mt].
Proof.
  unfold sendMessage_settled. intros H.
  destruct r as [|res]; [injection H as <-; by left|].
  destruct (body res) as [data|]; [|injection H as <-; by left].
  destruct (get data (lit "reply")) as [reply|]; [|discriminate].
  injection H as <-. right. by exists reply.
Qed.

Lemma sendMessage_settled_frame mt r now date a s :
  sendMessage_settled mt r now date a = Rendered s →
  network s = network a ∧ inflight s = inflight a ∧ pdfPath s = pdfPath a
  ∧ selectedFile s = selectedFile a ∧ message s = message a
  ∧ messageType s = messageType a ∧ sessionId s = sessionId a.
Proof.
  unfold sendMessage_settled. intros H.
  destruct r as [|res]; [by injection H as <-|].
  destruct (body res) as [data|]; [|by injection H as <-].
  destruct (get data (lit "reply")) as [reply|]; [|discriminate].
  by injection H as <-.
Qed.

Lemma handleFileUpload_messages file a :
  messages (handleFileUpload file a) = messages a.
Proof.
  unfold handleFileUpload. destruct file as [f|]; [|done]. by case_decide.
Qed.

Lemma handleFileUpload_settled_messages file r a :
  messages (handleFileUpload_settled file r a) = messages a.
Proof.
  unfold handleFileUpload_settled. by destruct (uploadPDF_settled r).
Qed.

Lemma handleFileUpload_settled_network file r a :
  network (handleFileUpload_settled file r a) = network a
  ∧ inflight (handleFileUpload_settled file r a) = inflight a.
Proof.
  unfold handleFileUpload_settled. by destruct (uploadPDF_settled r).
Qed.

Lemma handleSuggestion_frame t a :
  messages (handleSuggestion t a) = messages a
  ∧ network (handleSuggestion t a) = network a
  ∧ inflight (handleSuggestion t a) = inflight a
  ∧ pdfPath (handleSuggestion t a) = pdfPath a.
Proof. by destruct t. Qed.

Lemma step_messages_prefix e a s :
  step e a = Rendered s → messages a `prefix_of` messages s.
Proof.
  destruct e as [v|t|file| |now date|rid r now date|rid r]; simpl; intros H.
  - by injection H as <-.
  - injection H as <-. by rewrite (proj1 (handleSuggestion_frame t a)).
  - injection H as <-. by rewrite handleFileUpload_messages.
  - by injection H as <-.
  - injection H as <-. rewrite sendMessage_messages.
    destruct (nothing_to_send a); [done|]. by apply prefix_app_r.
  - destruct (inflight a !! rid) as [[mt|f]|]; try by injection H as <-.
    apply sendMessage_settled_messages in H as [->| [reply ->]]; simpl.
    + done.
    + by apply prefix_app_r.
  - destruct (inflight a !! rid) as [[mt|f]|]; try by injection H as <-.
    apply render_Rendered in H as ->.
    by rewrite handleFileUpload_settled_messages.
Qed.

Lemma run_messages_prefix es a s :
  run es a = Rendered s → messages a `prefix_of` messages s.
Proof.
  revert a. induction es as [|e es IH]; simpl; intros a H.
  - by injection H as <-.
  - destruct (step e a) as [a'|] eqn:E; [|discriminate].
    etrans; [by eapply step_messages_prefix|by apply IH].
Qed.

Lemma handleFileUpload_network file a :
  (network (handleFileUpload file a) = network a
   ∧ inflight (handleFileUpload file a) = inflight a)
  ∨ ∃ f, file = Some f
    ∧ network (handleFileUpload file a) = network a ++ [UploadRequest f]
    ∧ inflight (handleFileUpload file a) =
      <[length (network a) := AwaitUpload f]> (inflight a).
Proof.
  unfold handleFileUpload. destruct file as [f|]; [|by left].
  case_decide; [|by left]. right. by exists f.
Qed.

Lemma sendMessage_inflight now date a :
  inflight (sendMessage now date a) =
  if nothing_to_send a then inflight a
  else <[length (network a) := AwaitChat (messageType a)]> (inflight a).
Proof. unfold sendMessage. by destruct (nothing_to_send a). Qed.

(** A step issues at most one request, and the only handler that starts
    waiting waits for that request; the others wait on or are resumed. *)
Lemma step_network_inflight e a s :
  step e a = Rendered s →
  ∃ new, network s = network a ++ new
    ∧ ∀ rid, rid < length (network a) →
        inflight s !! rid = inflight a !! rid ∨ inflight s !! rid = None.
Proof.
  destruct e as [v|t|file| |now date|rid r now date|rid r]; simpl; intros H.
  - injection H as <-. exists []. rewrite app_nil_r. auto.
  - injection H as <-. exists []. rewrite app_nil_r.
    destruct (handleSuggestion_frame t a) as (_ & -> & -> & _). auto.
  - injection H as <-.
    destruct (handleFileUpload_network file a) as [[-> ->]|(f & _ & -> & ->)].
    + exists []. rewrite app_nil_r. auto.
    + eexists. split; [done|]. intros rid' Hlt. left.
      apply lookup_insert_ne. lia.
  - injection H as <-. exists []. rewrite app_nil_r. auto.
  - injection H as <-. rewrite sendMessage_network, sendMessage_inflight.
    destruct (nothing_to_send a).
    + exists []. rewrite app_nil_r. auto.
    + eexists. split; [done|]. intros rid' Hlt. left.
      apply lookup_insert_ne. lia.
  - exists []. rewrite app_nil_r.
    destruct (inflight a !! rid) as [[mt|f]|] eqn:E;
      try (injection H as <-; by auto).
    apply sendMessage_settled_frame in H as (-> & -> & _). simpl.
    split; [done|]. intros rid' _.
    destruct (decide (rid = rid')) as [->|Hne].
    + right. apply lookup_delete_eq.
    + left. by apply lookup_delete_ne.
  - exists []. rewrite app_nil_r.
    destruct (inflight a !! rid) as [[mt|f]|] eqn:E;
      try (injection H as <-; by auto).
    apply render_Rendered in H as ->.
    destruct (handleFileUpload_settled_network f r (resume rid a)) as [-> ->].
    simpl. split; [done|]. intros rid' _.
    destruct (decide (rid = rid')) as [->|Hne].
    + right. apply lookup_delete_eq.
    + left. by apply lookup_delete_ne.
Qed.

Lemma run_network_inflight es a s :
  run es a = Rendered s →
  ∃ new, network s = network a ++ new
    ∧ ∀ rid, rid < length (network a) →
        inflight s !! rid = inflight a !! rid ∨ inflight s !! rid = None.
Proof.
  revert a. induction es as [|e es IH]; simpl; intros a H.
  - injection H as <-. exists []. rewrite app_nil_r. auto.
  - destruct (step e a) as [a'|] eqn:E; [|discriminate].
    apply step_network_inflight in E as (new1 & N1 & I1).
    apply IH in H as (new2 & N2 & I2).
    exists (new1 ++ new2). split; [by rewrite N2, N1, app_assoc|].
    intros rid Hlt.
    destruct (I2 rid) as [->| ->]; [rewrite N1, length_app; lia| |by right].
    by apply I1.
Qed.

(** A handler found waiting for request [rid] after a run is the one that
    was waiting for it before. *)
Lemma run_inflight_same es a s rid k k' :
  run es a = Rendered s →
  inflight a !! rid = Some k → rid < length (network a) →
  inflight s !! rid = Some k' → k' = k.
Proof.
  intros H Ha Hlt Hs.
  apply run_network_inflight in H as (_ & _ & I).
  destruct (I rid Hlt) as [E|E]; congruence.
Qed.

(** ** Session Identity Provider *)

(** Once a truthy identifier is stored, a call returns it and touches
    nothing. *)
Lemma getOrCreateSessionId_stored entropy ls sid :
  items ls !! chat_session_id = Some sid → to_boolean (JStr sid) = true →
  getOrCreateSessionId entropy ls = (JStr sid, ls).
Proof.
  intros Hget Htrue. unfold getOrCreateSessionId, getItem.
  by rewrite Hget, Htrue.
Qed.

Lemma getOrCreateSessionId_calls_stored entropies ls sid :
  items ls !! chat_session_id = Some sid → to_boolean (JStr sid) = true →
  getOrCreateSessionId_calls entropies ls =
  (replicate (length entropies) (JStr sid), ls).
Proof.
  intros Hget Htrue. induction entropies as [|e rest IH]; [done|].
  simpl getOrCreateSessionId_calls.
  by rewrite (getOrCreateSessionId_stored e ls sid Hget Htrue), IH.
Qed.

(** C4. In a storage scope that holds no [chat_session_id] yet, the first
    call of [getOrCreateSessionId] returns a freshly generated identifier and
    writes it under the key [chat_session_id], by that one [setItem] call;
    however many further calls follow, each returns the identical string, and
    the storage, its record of writes included, stays as the first call left
    it. *)
Theorem getOrCreateSessionId_idempotent (entropy : N) (ls : LocalStorage) :
  items ls !! chat_session_id = None →
  let sid := randomUUID entropy in
  let ls1 := (getOrCreateSessionId entropy ls).2 in
  (getOrCreateSessionId entropy ls).1 = JStr sid
  ∧ length sid = 36
  ∧ items ls1 !! chat_session_id = Some sid
  ∧ setItem_calls ls1 = setItem_calls ls ++ [(chat_session_id, sid)]
  ∧ ∀ later : list N,
      getOrCreateSessionId_calls later ls1 =
      (replicate (length later) (JStr sid), ls1).
Proof.
  intros Hfresh sid ls1.
  assert (getOrCreateSessionId entropy ls
          = (JStr sid, setItem chat_session_id sid ls)) as E.
  { unfold getOrCreateSessionId, getItem. by rewrite Hfresh. }
  subst ls1. rewrite E. simpl fst. simpl snd.
  assert (items (setItem chat_session_id sid ls) !! chat_session_id
          = Some sid) as Hstored by apply lookup_insert_eq.
  repeat split; try done.
  intros later. apply getOrCreateSessionId_calls_stored; [done|].
  apply randomUUID_truthy.
Qed.

Lemma getOrCreateSessionId_idempotent_witness :
  items fresh_storage !! chat_session_id = None
  ∧ getOrCreateSessionId_calls [7; 8; 9]%N
      (getOrCreateSessionId 5 fresh_storage).2
    = (replicate 3 (JStr (randomUUID 5)),
       (getOrCreateSessionId 5 fresh_storage).2).
Proof.
  split; [reflexivity|].
  apply (getOrCreateSessionId_idempotent 5 fresh_storage). reflexivity.
Defined.

(** ** Chat Dispatcher *)

(** A send that passes the guard, followed by any events: as long as its
    request is awaited, the waiting handler is the one this send suspended,
    and the user Message it appended is in the store, after everything that
    was there before. *)
Lemma sent_then_awaited a now date es s :
  nothing_to_send a = false →
  run es (sendMessage now date a) = Rendered s →
  is_Some (inflight s !! length (network a)) →
  inflight s !! length (network a) = Some (AwaitChat (messageType a))
  ∧ ∃ between,
      messages s = messages a ++ user_message now date a :: between.
Proof.
  intros Hguard Hrun [k Hk]. split.
  - rewrite Hk. f_equal.
    eapply (run_inflight_same es (sendMessage now date a)); [done| | |done].
    + rewrite sendMessage_inflight, Hguard. apply lookup_insert_eq.
    + rewrite sendMessage_network, Hguard, length_app. simpl. lia.
  - apply run_messages_prefix in Hrun as [between Hb].
    rewrite sendMessage_messages, Hguard in Hb.
    exists between. by rewrite Hb, <- app_assoc.
Qed.

(** The response arrives with a body [data] that is JSON and not [null]:
    exactly one assistant Message is appended, no notice is shown. *)
Lemma chat_settled_with_body s rid mt res data reply now date :
  inflight s !! rid = Some (AwaitChat mt) →
  body res = Some data → get data (lit "reply") = Some reply →
  ∃ s', step (ChatSettled rid (Resolved res) now date) s = Rendered s'
    ∧ messages s' = messages s ++ [assistant_message now date reply mt]
    ∧ toasts s' = toasts s
    ∧ pdfPath s' = pdfPath s.
Proof.
  intros Hk Hbody Hreply. simpl. rewrite Hk.
  unfold sendMessage_settled. rewrite Hbody, Hreply. by eexists.
Qed.

(** The [fetch] rejects, or the body of the response is not JSON: the notice
    is shown and the store is left as it is. *)
Lemma chat_settled_rejected s rid mt r now date :
  inflight s !! rid = Some (AwaitChat mt) →
  r = NetworkError ∨ (∃ res, r = Resolved res ∧ body res = None) →
  ∃ s', step (ChatSettled rid r now date) s = Rendered s'
    ∧ messages s' = messages s
    ∧ toasts s' = toasts s ++ [toast_send_failed].
Proof.
  intros Hk Hr. simpl. rewrite Hk.
  destruct Hr as [->|(res & -> & Hbody)]; unfold sendMessage_settled.
  - by eexists.
  - rewrite Hbody. by eexists.
Qed.

(** The part of C1 that the code does: when the request fails with a network
    error, the call has appended the user Message and nothing else. *)
Lemma send_network_error_keeps_echo a now date now' date' :
  nothing_to_send a = false →
  ∃ s', run [Send now date;
             ChatSettled (length (network a)) NetworkError now' date'] a
        = Rendered s'
    ∧ messages s' = messages a ++ [user_message now date a]
    ∧ toasts s' = toasts a ++ [toast_send_failed].
Proof.
  intros Hguard.
  destruct (sent_then_awaited a now date [] (sendMessage now date a))
    as [Hk _]; [done|done| |].
  { rewrite sendMessage_inflight, Hguard, lookup_insert_eq. by eexists. }
  destruct (chat_settled_rejected _ _ _ NetworkError now' date' Hk)
    as (s' & Hstep & Hm & Ht); [by left|].
  exists s'. simpl run. simpl in Hstep. rewrite Hstep.
  split; [done|]. rewrite Hm, Ht, sendMessage_messages, Hguard.
  split; [done|]. unfold sendMessage. by rewrite Hguard.
Qed.

(** C1, at a failing input. The user sends [hi] and the chat endpoint
    answers HTTP 500 with the JSON body [{"detail": "Internal Server Error"}]:
    the request has failed with a non-2xx status, yet an assistant Message is
    appended, the store has grown by 2 and no error notice is shown. *)
Theorem send_http_500_appends_assistant :
  run [Send 1000 1000; ChatSettled 0 (Resolved chat_http_500) 1500 1500]
    typed_hi
  = Rendered sent_hi_got_500
  ∧ ok chat_http_500 = false
  ∧ length (messages sent_hi_got_500) = length (messages typed_hi) + 2
  ∧ msg_type <$> messages sent_hi_got_500 = [user; assistant]
  ∧ toasts sent_hi_got_500 = toasts typed_hi.
Proof. repeat split; vm_compute; reflexivity. Qed.

(** C2. A send that passes the guard appends a user Message carrying the
    input text and the mode, and nothing else. Whatever happens before its
    request is answered, when the answer is a success (a 2xx status and a
    JSON object as body) exactly one assistant Message is appended, at the
    end, so after the user Message of the same call. When nothing else
    happens in between, the store has grown by exactly 2, user then
    assistant. *)
Theorem send_success_appends_user_then_assistant
    a now date es s res fields now' date' :
  nothing_to_send a = false →
  run es (sendMessage now date a) = Rendered s →
  is_Some (inflight s !! length (network a)) →
  ok res = true → body res = Some (JObj fields) →
  let rid := length (network a) in
  let u := user_message now date a in
  let reply := default JUndefined (obj_lookup fields (lit "reply")) in
  let r := assistant_message now' date' reply (messageType a) in
  messages (sendMessage now date a) = messages a ++ [u]
  ∧ msg_type u = user ∧ content u = JStr (message a)
  ∧ source u = messageType a
  ∧ msg_type r = assistant
  ∧ (∃ between s',
        messages s = messages a ++ u :: between
        ∧ step (ChatSettled rid (Resolved res) now' date') s = Rendered s'
        ∧ messages s' = messages a ++ u :: between ++ [r])
  ∧ (∃ s', run [Send now date; ChatSettled rid (Resolved res) now' date'] a
           = Rendered s'
        ∧ messages s' = messages a ++ [u; r]
        ∧ length (messages s') = length (messages a) + 2).
Proof.
  intros Hguard Hrun Hawait _ Hbody rid u reply r.
  assert (∀ es0 s0, run es0 (sendMessage now date a) = Rendered s0 →
            is_Some (inflight s0 !! rid) →
            ∃ between s',
              messages s0 = messages a ++ u :: between
              ∧ step (ChatSettled rid (Resolved res) now' date') s0
                = Rendered s'
              ∧ messages s' = messages a ++ u :: between ++ [r]) as Hgen.
  { intros es0 s0 Hrun0 Hawait0.
    destruct (sent_then_awaited a now date es0 s0 Hguard Hrun0 Hawait0)
      as [Hk [between Hm]].
    destruct (chat_settled_with_body s0 rid (messageType a) res (JObj fields)
                reply now' date' Hk Hbody eq_refl) as (s' & Hstep & Hm' & _).
    exists between, s'. split; [done|]. split; [done|].
    by rewrite Hm', Hm, <- app_assoc. }
  repeat split.
  - by rewrite sendMessage_messages, Hguard.
  - by apply Hgen with es.
  - destruct (Hgen [] (sendMessage now date a)) as (between & s' & Hm & Hs & Hm');
      [done| |].
    { rewrite sendMessage_inflight, Hguard.
      unfold rid. rewrite lookup_insert_eq. by eexists. }
    rewrite sendMessage_messages, Hguard in Hm.
    apply app_inv_head in Hm. injection Hm as <-.
    exists s'. simpl run. simpl in Hs. rewrite Hs.
    rewrite Hm'. split; [done|]. split; [done|].
    rewrite length_app. simpl. lia.
Qed.

Lemma send_success_appends_user_then_assistant_witness :
  nothing_to_send typed_hi = false
  ∧ run [InputChange (lit "ok"); Send 1200 1200]
      (sendMessage 1000 1000 typed_hi) = Rendered two_pending
  ∧ is_Some (inflight two_pending !! length (network typed_hi))
  ∧ ok chat_http_200_hello = true
  ∧ ∃ s', run [Send 1000 1000;
               ChatSettled (length (network typed_hi))
                 (Resolved chat_http_200_hello) 1500 1500] typed_hi
          = Rendered s'
      ∧ length (messages s') = length (messages typed_hi) + 2.
Proof.
  assert (nothing_to_send typed_hi = false) as H1 by reflexivity.
  assert (run [InputChange (lit "ok"); Send 1200 1200]
            (sendMessage 1000 1000 typed_hi) = Rendered two_pending) as H2
    by (vm_compute; reflexivity).
  assert (is_Some (inflight two_pending !! length (network typed_hi))) as H3
    by (vm_compute; eexists; reflexivity).
  assert (ok chat_http_200_hello = true) as H4 by reflexivity.
  repeat split; try assumption.
  destruct (send_success_appends_user_then_assistant
              typed_hi 1000 1000 [InputChange (lit "ok"); Send 1200 1200]
              two_pending chat_http_200_hello
              [(lit "reply", JStr (lit "Hello"))] 1500 1500
              H1 H2 H3 H4 eq_refl)
    as (_ & _ & _ & _ & _ & _ & s' & Hs & _ & Hlen).
  by exists s'.
Defined.

(** C3. When the text is blank after trimming and no attachment reference is
    set ([pdfPath] is [null], or any other falsy value), [sendMessage] returns
    at its guard: the whole state is unchanged, so the store is unchanged, no
    request is issued and no notice is shown, and nothing is thrown. *)
Theorem send_blank_without_attachment_is_noop a now date :
  trim (message a) = [] → to_boolean (pdfPath a) = false →
  sendMessage now date a = a
  ∧ step (Send now date) a = Rendered a
  ∧ messages (sendMessage now date a) = messages a
  ∧ network (sendMessage now date a) = network a
  ∧ toasts (sendMessage now date a) = toasts a.
Proof.
  intros Hblank Hnone.
  assert (sendMessage now date a = a) as E.
  { unfold sendMessage, nothing_to_send. by rewrite Hblank, Hnone. }
  simpl step. by rewrite E.
Qed.

Lemma send_blank_without_attachment_is_noop_witness :
  trim (message typed_blanks) = []
  ∧ to_boolean (pdfPath typed_blanks) = false
  ∧ sendMessage 1000 1000 typed_blanks = typed_blanks.
Proof.
  assert (trim (message typed_blanks) = []) as H1 by reflexivity.
  assert (to_boolean (pdfPath typed_blanks) = false) as H2 by reflexivity.
  split; [exact H1|]. split; [exact H2|].
  exact (proj1 (send_blank_without_attachment_is_noop
                  typed_blanks 1000 1000 H1 H2)).
Defined.

(** C5. A send passes the guard and, while its request is awaited, the chat
    endpoint answers with a success whose body is a JSON object that has no
    [reply] field or has the empty string as [reply]: the Message then
    appended is an assistant Message whose content is the literal string
    [No response received.]. *)
Theorem send_success_without_reply_falls_back
    a now date es s res fields now' date' :
  nothing_to_send a = false →
  run es (sendMessage now date a) = Rendered s →
  is_Some (inflight s !! length (network a)) →
  ok res = true → body res = Some (JObj fields) →
  obj_lookup fields (lit "reply") = None
  ∨ obj_lookup fields (lit "reply") = Some (JStr []) →
  ∃ s' m,
    step (ChatSettled (length (network a)) (Resolved res) now' date') s
    = Rendered s'
    ∧ messages s' = messages s ++ [m]
    ∧ msg_type m = assistant
    ∧ content m = JStr (lit "No response received.").
Proof.
  intros Hguard Hrun Hawait _ Hbody Hreply.
  destruct (sent_then_awaited a now date es s Hguard Hrun Hawait) as [Hk _].
  set (reply := default JUndefined (obj_lookup fields (lit "reply"))).
  destruct (chat_settled_with_body s (length (network a)) (messageType a) res
              (JObj fields) reply now' date' Hk Hbody eq_refl)
    as (s' & Hstep & Hm & _).
  exists s', (assistant_message now' date' reply (messageType a)).
  split; [done|]. split; [done|]. split; [done|].
  simpl. apply js_or_falsy. unfold reply.
  by destruct Hreply as [-> | ->].
Qed.

Lemma send_success_without_reply_falls_back_witness :
  nothing_to_send typed_hi = false
  ∧ ok chat_http_200_empty = true
  ∧ ∃ s' m,
      step (ChatSettled 0 (Resolved chat_http_200_empty) 1500 1500)
        (sendMessage 1000 1000 typed_hi) = Rendered s'
      ∧ messages s' = messages (sendMessage 1000 1000 typed_hi) ++ [m]
      ∧ msg_type m = assistant
      ∧ content m = JStr (lit "No response received.").
Proof.
  assert (nothing_to_send typed_hi = false) as H1 by reflexivity.
  assert (ok chat_http_200_empty = true) as H4 by reflexivity.
  split; [exact H1|]. split; [exact H4|].
  apply (send_success_without_reply_falls_back typed_hi 1000 1000 []
           (sendMessage 1000 1000 typed_hi) chat_http_200_empty []
           1500 1500 H1 eq_refl).
  - vm_compute. eexists. reflexivity.
  - exact H4.
  - reflexivity.
  - left. reflexivity.
Defined.

Lemma sendMessage_pdfPath now date a :
  pdfPath (sendMessage now date a) = pdfPath a.
Proof. unfold sendMessage. by destruct (nothing_to_send a). Qed.

(** Only the completion of an upload can change the Attachment Reference. *)
Lemma step_keeps_pdfPath e a s :
  upload_settles e = false → step e a = Rendered s → pdfPath s = pdfPath a.
Proof.
  destruct e as [v|t|file| |now date|rid r now date|rid r]; simpl;
    intros Hev H; try discriminate.
  - by injection H as <-.
  - injection H as <-. by destruct t.
  - injection H as <-. unfold handleFileUpload.
    destruct file as [f|]; [|done]. by case_decide.
  - by injection H as <-.
  - injection H as <-. apply sendMessage_pdfPath.
  - destruct (inflight a !! rid) as [[mt|f]|]; try by injection H as <-.
    by apply sendMessage_settled_frame in H as (_ & _ & -> & _).
Qed.

Lemma run_keeps_pdfPath es a s :
  Forall (λ e, upload_settles e = false) es →
  run es a = Rendered s → pdfPath s = pdfPath a.
Proof.
  intros Hes. revert a.
  induction Hes as [|e es He _ IH]; simpl; intros a H.
  - by injection H as <-.
  - destruct (step e a) as [a'|] eqn:E; [|discriminate].
    rewrite (IH a' H). by eapply step_keeps_pdfPath.
Qed.

(** C8 as stated fails when an upload completes between the two sends.
    [notes.pdf] is selected and, while its upload is pending, [hi] is sent:
    the send clears the text and the mode and leaves the Attachment Reference
    (null) as it was, and its request carries [pdf_path: null]. Then the
    upload succeeds, and the follow-up send of [ok] carries
    [pdf_path: "/tmp/abc123.pdf"]. *)
Lemma follow_up_after_upload_differs :
  nothing_to_send typed_hi_while_uploading = false
  ∧ pdfPath (sendMessage 1000 1000 typed_hi_while_uploading)
    = pdfPath typed_hi_while_uploading
  ∧ run [UploadSettled 0 (Resolved upload_http_200); InputChange (lit "ok")]
      (sendMessage 1000 1000 typed_hi_while_uploading)
    = Rendered typed_ok_after_upload
  ∧ nothing_to_send typed_ok_after_upload = false
  ∧ chat_payloads (network (sendMessage 2000 2000 typed_ok_after_upload))
    = [sendMessage_payload typed_hi_while_uploading;
       sendMessage_payload typed_ok_after_upload]
  ∧ ¬ (pdf_path (sendMessage_payload typed_ok_after_upload)
       = pdf_path (sendMessage_payload typed_hi_while_uploading)).
Proof.
  split; [reflexivity|]. split; [reflexivity|].
  split; [vm_compute; reflexivity|]. split; [reflexivity|].
  split; [vm_compute; reflexivity|].
  vm_compute. discriminate.
Qed.

(** C8, amended. A send that passes the precondition clears the input text
    and resets the mode to unset, and leaves the Attachment Reference as it
    was; its request carries that reference as [pdf_path]. Provided no
    upload completes in between, whatever else happens (the answer to this
    send, typing, a click on a tile, a file selection, another send), the
    reference is still the same and a follow-up send carries the same
    [pdf_path] in its request. *)
Theorem send_clears_input_keeps_attachment a now date :
  nothing_to_send a = false →
  let s1 := sendMessage now date a in
  message s1 = [] ∧ messageType s1 = None ∧ pdfPath s1 = pdfPath a
  ∧ network s1 = network a ++ [ChatRequest (sendMessage_payload a)]
  ∧ pdf_path (sendMessage_payload a) = pdfPath a
  ∧ ∀ es s2 now2 date2,
      Forall (λ e, upload_settles e = false) es →
      run es s1 = Rendered s2 →
      nothing_to_send s2 = false →
      pdfPath s2 = pdfPath a
      ∧ network (sendMessage now2 date2 s2) =
        network s2 ++ [ChatRequest (sendMessage_payload s2)]
      ∧ pdf_path (sendMessage_payload s2) = pdf_path (sendMessage_payload a).
Proof.
  intros Hguard s1.
  assert (pdfPath s1 = pdfPath a) as Hp by apply sendMessage_pdfPath.
  split; [|split; [|split; [done|split; [|split; [done|]]]]].
  - unfold s1, sendMessage. by rewrite Hguard.
  - unfold s1, sendMessage. by rewrite Hguard.
  - unfold s1. by rewrite sendMessage_network, Hguard.
  - intros es s2 now2 date2 Hes Hrun Hguard2.
    assert (pdfPath s2 = pdfPath a) as Hp2.
    { by rewrite (run_keeps_pdfPath es s1 s2 Hes Hrun). }
    split; [done|]. split; [|done].
    by rewrite sendMessage_network, Hguard2.
Qed.

Lemma send_clears_input_keeps_attachment_witness :
  nothing_to_send asked_summary = false
  ∧ message (sendMessage 1000 1000 asked_summary) = []
  ∧ messageType (sendMessage 1000 1000 asked_summary) = None
  ∧ pdf_path (sendMessage_payload asked_summary) = JStr (lit "/tmp/abc123.pdf")
  ∧ pdf_path (sendMessage_payload asked_again) = JStr (lit "/tmp/abc123.pdf").
Proof.
  assert (nothing_to_send asked_summary = false) as H1 by reflexivity.
  split; [exact H1|].
  destruct (send_clears_input_keeps_attachment asked_summary 1000 1000 H1)
    as (Hm & Ht & _ & _ & Hp & Hnext).
  split; [exact Hm|]. split; [exact Ht|].
  assert (pdf_path (sendMessage_payload asked_summary)
          = JStr (lit "/tmp/abc123.pdf")) as Hpath
    by (rewrite Hp; reflexivity).
  split; [exact Hpath|].
  destruct (Hnext [ChatSettled 1 (Resolved chat_http_200_hello) 1500 1500;
                   InputChange (lit "And the conclusion?")]
              asked_again 2000%Z 2000%Z) as (_ & _ & Hsame).
  - repeat constructor.
  - vm_compute. reflexivity.
  - reflexivity.
  - rewrite Hsame. exact Hpath.
Defined.

(** C9, at a failing input. [hi] is sent at time 1000 and answered at time
    1500, so the assistant Message gets the id [1501]; the user sends [ok] at
    time 1501 and that user Message gets the id [1501] too: two distinct
    Messages of the store share their id. *)
Theorem message_ids_collide :
  run [Send 1000 1000;
       ChatSettled 0 (Resolved chat_http_200_hello) 1500 1500;
       InputChange (lit "ok");
       Send 1501 1501] typed_hi
  = Rendered two_exchanges
  ∧ ∃ m1 m2,
      messages two_exchanges !! 1 = Some m1
      ∧ messages two_exchanges !! 2 = Some m2
      ∧ m1 ≠ m2
      ∧ msg_id m1 = msg_id m2
      ∧ ¬ NoDup (msg_id <$> messages two_exchanges).
Proof.
  split; [vm_compute; reflexivity|].
  eexists _, _. split; [vm_compute; reflexivity|].
  split; [vm_compute; reflexivity|].
  split; [discriminate|]. split; [reflexivity|].
  vm_compute. intros Hnd.
  apply NoDup_cons in Hnd as [_ Hnd]. apply NoDup_cons in Hnd as [Hnotin _].
  apply Hnotin. left.
Qed.

(** C10. When an attachment reference is set (so that [pdfPath] is truthy)
    and the text is blank after trimming, [sendMessage] passes its guard: it
    appends a user Message whose content is the text as typed, and issues a
    chat request whose [User_message] is that same, untrimmed, text. *)
Theorem send_blank_with_attachment_sends a now date :
  to_boolean (pdfPath a) = true → trim (message a) = [] →
  let s := sendMessage now date a in
  nothing_to_send a = false
  ∧ (∃ m, messages s = messages a ++ [m]
        ∧ msg_type m = user ∧ content m = JStr (message a))
  ∧ (∃ p, network s = network a ++ [ChatRequest p]
        ∧ User_message p = message a ∧ pdf_path p = pdfPath a)
  ∧ inflight s !! length (network a) = Some (AwaitChat (messageType a)).
Proof.
  intros Hset Hblank s.
  assert (nothing_to_send a = false) as Hguard.
  { unfold nothing_to_send. rewrite Hset. apply andb_false_r. }
  split; [done|]. split; [|split].
  - exists (user_message now date a).
    unfold s. by rewrite sendMessage_messages, Hguard.
  - exists (sendMessage_payload a).
    unfold s. by rewrite sendMessage_network, Hguard.
  - unfold s. rewrite sendMessage_inflight, Hguard. apply lookup_insert_eq.
Qed.

Lemma send_blank_with_attachment_sends_witness :
  to_boolean (pdfPath (setMessage (lit "  ") uploaded)) = true
  ∧ trim (message (setMessage (lit "  ") uploaded)) = []
  ∧ nothing_to_send (setMessage (lit "  ") uploaded) = false.
Proof.
  assert (to_boolean (pdfPath (setMessage (lit "  ") uploaded)) = true)
    as H1 by reflexivity.
  assert (trim (message (setMessage (lit "  ") uploaded)) = [])
    as H2 by reflexivity.
  split; [exact H1|]. split; [exact H2|].
  exact (proj1 (send_blank_with_attachment_sends
                  (setMessage (lit "  ") uploaded) 1000 1000 H1 H2)).
Defined.

(** ** Attachment Uploader *)

(** C6. When the selected file's media type is not [application/pdf],
    [handleFileUpload] does nothing but show the invalid-type notice: no
    request is issued and no handler is left waiting, so the upload endpoint
    is never called, and the Attachment Reference, like every other part of
    the state, is unchanged. *)
Theorem non_pdf_selection_only_notifies (f : File) (a : App) :
  file_type f ≠ lit "application/pdf" →
  let s := handleFileUpload (Some f) a in
  step (FileChange (Some f)) a = Rendered s
  ∧ s = toast toast_invalid_file_type a
  ∧ network s = network a
  ∧ inflight s = inflight a
  ∧ pdfPath s = pdfPath a
  ∧ selectedFile s = selectedFile a
  ∧ messages s = messages a
  ∧ toasts s = toasts a ++ [toast_invalid_file_type].
Proof.
  intros Hnot s.
  assert (s = toast toast_invalid_file_type a) as E.
  { unfold s, handleFileUpload. by case_decide. }
  split; [done|]. by rewrite E.
Qed.

Lemma non_pdf_selection_only_notifies_witness :
  file_type photo_png ≠ lit "application/pdf"
  ∧ network (handleFileUpload (Some photo_png) uploaded) = network uploaded
  ∧ pdfPath (handleFileUpload (Some photo_png) uploaded)
    = JStr (lit "/tmp/abc123.pdf").
Proof.
  assert (file_type photo_png ≠ lit "application/pdf") as H1
    by (vm_compute; discriminate).
  split; [exact H1|].
  destruct (non_pdf_selection_only_notifies photo_png uploaded H1)
    as (_ & _ & Hn & _ & Hp & _).
  split; [exact Hn|]. rewrite Hp. reflexivity.
Defined.

(** A selected PDF file, followed by any events: as long as its upload is
    awaited, the waiting handler is the one this selection suspended. *)
Lemma selected_then_awaited f a es s :
  file_type f = lit "application/pdf" →
  run es (handleFileUpload (Some f) a) = Rendered s →
  is_Some (inflight s !! length (network a)) →
  inflight s !! length (network a) = Some (AwaitUpload f).
Proof.
  intros Hpdf Hrun [k Hk]. rewrite Hk. f_equal.
  eapply (run_inflight_same es (handleFileUpload (Some f) a)); [done| | |done].
  - unfold handleFileUpload. rewrite decide_True by done.
    apply lookup_insert_eq.
  - unfold handleFileUpload. rewrite decide_True by done.
    simpl. rewrite length_app. simpl. lia.
Qed.




(** ** Further properties: Session Identity Provider *)

Lemma getOrCreateSessionId_cases entropy ls :
  (∃ sid : jsstring, items ls !! chat_session_id = Some sid ∧ sid ≠ []
          ∧ getOrCreateSessionId entropy ls = (JStr sid, ls))
  ∨ ((items ls !! chat_session_id = None
      ∨ items ls !! chat_session_id = Some [])
     ∧ getOrCreateSessionId entropy ls =
       (JStr (randomUUID entropy),
        setItem chat_session_id (randomUUID entropy) ls)).
Proof.
  unfold getOrCreateSessionId, getItem.
  destruct (items ls !! chat_session_id) as [[|c sid]|] eqn:E; simpl.
  - right. auto.
  - left. exists (c :: sid). auto.
  - right. auto.
Qed.

(** X1. Whatever the storage holds, a second call of [getOrCreateSessionId]
    returns what the first call returned and leaves the storage, its record
    of writes included, as the first call left it. *)
Theorem getOrCreateSessionId_twice (e1 e2 : N) (ls : LocalStorage) :
  getOrCreateSessionId e2 (getOrCreateSessionId e1 ls).2
  = getOrCreateSessionId e1 ls.
Proof.
  destruct (getOrCreateSessionId_cases e1 ls)
    as [(sid & Hget & Hne & ->) | (_ & ->)]; cbn [fst snd].
  - apply getOrCreateSessionId_stored; [done|].
    by apply to_boolean_nonempty_string.
  - apply getOrCreateSessionId_stored; [apply lookup_insert_eq|].
    apply randomUUID_truthy.
Qed.

(** X2. [getOrCreateSessionId] always returns a non-empty string, and that
    string is what the storage holds under [chat_session_id] afterwards. *)
Theorem getOrCreateSessionId_returns_stored (entropy : N) (ls : LocalStorage) :
  ∃ sid,
    (getOrCreateSessionId entropy ls).1 = JStr sid ∧ sid ≠ []
    ∧ getItem chat_session_id (getOrCreateSessionId entropy ls).2 = JStr sid.
Proof.
  destruct (getOrCreateSessionId_cases entropy ls)
    as [(sid & Hget & Hne & ->) | (_ & ->)]; cbn [fst snd].
  - exists sid. unfold getItem. by rewrite Hget.
  - exists (randomUUID entropy). split; [done|]. split.
    + intros E. pose proof (randomUUID_length entropy) as L.
      by rewrite E in L.
    + unfold getItem, setItem. cbn [items]. by rewrite lookup_insert_eq.
Qed.

(** X3. [getOrCreateSessionId] touches no other key of the storage, and
    writes at most once, under [chat_session_id]. *)
Theorem getOrCreateSessionId_frame (entropy : N) (ls : LocalStorage) :
  let ls' := (getOrCreateSessionId entropy ls).2 in
  (∀ k, k ≠ chat_session_id → items ls' !! k = items ls !! k)
  ∧ (setItem_calls ls' = setItem_calls ls
     ∨ ∃ sid, setItem_calls ls' = setItem_calls ls ++ [(chat_session_id, sid)]).
Proof.
  destruct (getOrCreateSessionId_cases entropy ls)
    as [(sid & Hget & Hne & ->) | (_ & ->)]; cbn [fst snd].
  - auto.
  - split; [|right; by eexists].
    intros k Hk. by apply lookup_insert_ne.
Qed.

(** X4. A stored identifier that is the empty string counts as missing: the
    call generates a new identifier, returns it and overwrites the stored
    one; a stored non-empty identifier is returned as it is, whatever its
    shape, and nothing is written. *)
Theorem getOrCreateSessionId_stored_value (entropy : N) (ls : LocalStorage)
    (stored : jsstring) :
  items ls !! chat_session_id = Some stored →
  getOrCreateSessionId entropy ls =
  if decide (stored = [])
  then (JStr (randomUUID entropy),
        setItem chat_session_id (randomUUID entropy) ls)
  else (JStr stored, ls).
Proof.
  intros Hget. unfold getOrCreateSessionId, getItem. rewrite Hget.
  by destruct stored.
Qed.

Lemma getOrCreateSessionId_stored_value_witness :
  items (setItem chat_session_id [] fresh_storage) !! chat_session_id
  = Some []
  ∧ (getOrCreateSessionId 5 (setItem chat_session_id [] fresh_storage)).1
    = JStr (randomUUID 5).
Proof.
  assert (items (setItem chat_session_id [] fresh_storage)
            !! chat_session_id = Some []) as H by reflexivity.
  split; [exact H|].
  by rewrite (getOrCreateSessionId_stored_value 5 _ [] H).
Defined.

(** ** Further properties: the guard of [sendMessage] *)

Lemma trimStart_nil (s : jsstring) :
  trimStart s = [] ↔ forallb is_trimmed_unit s = true.
Proof.
  induction s as [|c rest IH]; simpl; [done|].
  destruct (is_trimmed_unit c); simpl; [done|]. split; discriminate.
Qed.

Lemma trimStart_head (s : jsstring) c rest :
  trimStart s = c :: rest → is_trimmed_unit c = false.
Proof.
  induction s as [|c' rest' IH]; simpl; [discriminate|].
  destruct (is_trimmed_unit c') eqn:E; [done|]. by intros [= <- _].
Qed.

Lemma forallb_rev {A} (p : A → bool) (l : list A) :
  forallb p (rev l) = true ↔ forallb p l = true.
Proof.
  rewrite !forallb_forall. split; intros H x Hx; apply H.
  - by apply in_rev in Hx.
  - by apply in_rev.
Qed.

Lemma trim_nil (s : jsstring) :
  trim s = [] ↔ forallb is_trimmed_unit s = true.
Proof.
  unfold trim. split.
  - intros H. apply (f_equal (@rev N)) in H. rewrite rev_involutive in H.
    simpl in H. apply trimStart_nil, forallb_rev in H.
    destruct (trimStart s) as [|c rest] eqn:E; [by apply trimStart_nil|].
    rewrite rev_involutive in H. apply trimStart_head in E.
    cbn [forallb] in H. by rewrite E in H.
  - intros H. apply trimStart_nil in H. by rewrite H.
Qed.

(** X5. [sendMessage] returns at its guard exactly when every code unit of
    the text is white space or a line terminator (the empty text included)
    and [pdfPath] is falsy. *)
Theorem nothing_to_send_iff (a : App) :
  nothing_to_send a = true
  ↔ forallb is_trimmed_unit (message a) = true
    ∧ to_boolean (pdfPath a) = false.
Proof.
  unfold nothing_to_send. rewrite andb_true_iff, !negb_true_iff.
  rewrite <- trim_nil.
  destruct (trim (message a)); simpl; split; intros [H1 H2]; done.
Qed.

Lemma sendMessage_fixed_iff (a : App) (now date : Z) :
  nothing_to_send a = true ↔ sendMessage now date a = a.
Proof.
  split.
  - intros H. unfold sendMessage. by rewrite H.
  - intros H. destruct (nothing_to_send a) eqn:E; [done|].
    apply (f_equal (λ s, length (network s))) in H.
    rewrite sendMessage_network, E, length_app in H. simpl in H. lia.
Qed.

(** X6. The send button is disabled exactly when a call of [sendMessage]
    would leave the state as it is. *)
Theorem send_disabled_iff_noop (a : App) (now date : Z) :
  send_disabled a = true ↔ sendMessage now date a = a.
Proof. apply sendMessage_fixed_iff. Qed.

(** X7. Without an attachment reference, sending twice in a row sends once:
    the first send empties the text, so the second returns at the guard. *)
Theorem double_send_without_attachment (a : App) (now date now' date' : Z) :
  to_boolean (pdfPath a) = false →
  sendMessage now' date' (sendMessage now date a) = sendMessage now date a.
Proof.
  intros Hnone.
  assert (nothing_to_send (sendMessage now date a) = true) as H.
  { unfold sendMessage. destruct (nothing_to_send a) eqn:E; [done|].
    unfold nothing_to_send. simpl. by rewrite Hnone. }
  unfold sendMessage at 1. by rewrite H.
Qed.

Lemma double_send_without_attachment_witness :
  to_boolean (pdfPath typed_hi) = false
  ∧ sendMessage 1001 1001 (sendMessage 1000 1000 typed_hi)
    = sendMessage 1000 1000 typed_hi.
Proof.
  assert (to_boolean (pdfPath typed_hi) = false) as H by reflexivity.
  split; [exact H|].
  exact (double_send_without_attachment typed_hi 1000 1000 1001 1001 H).
Defined.

(** X8. With an attachment reference set, sending twice in a row sends
    twice: the second request carries the empty text and the same
    [pdf_path], and a user Message with empty content is appended. *)
Theorem double_send_with_attachment (a : App) (now date now' date' : Z) :
  to_boolean (pdfPath a) = true →
  let s := sendMessage now' date' (sendMessage now date a) in
  network s =
    network a ++
    [ChatRequest (sendMessage_payload a);
     ChatRequest {| session_id := sessionId a; User_message := [];
                    pdf_path := pdfPath a |}]
  ∧ ∃ u1 u2,
      messages s = messages a ++ [u1; u2]
      ∧ content u1 = JStr (message a) ∧ content u2 = JStr []
      ∧ source u2 = None.
Proof.
  intros Hset s.
  assert (nothing_to_send a = false) as H1.
  { unfold nothing_to_send. rewrite Hset. apply andb_false_r. }
  assert (nothing_to_send (sendMessage now date a) = false) as H2.
  { unfold nothing_to_send. rewrite sendMessage_pdfPath, Hset.
    apply andb_false_r. }
  unfold s. rewrite sendMessage_network, H2, sendMessage_network, H1.
  rewrite sendMessage_messages, H2, sendMessage_messages, H1.
  rewrite <- !app_assoc. split.
  - unfold sendMessage_payload, sendMessage. by rewrite H1.
  - eexists _, _. split; [done|].
    unfold user_message, sendMessage. by rewrite H1.
Qed.

Lemma double_send_with_attachment_witness :
  to_boolean (pdfPath asked_summary) = true
  ∧ length (network (sendMessage 1001 1001
                       (sendMessage 1000 1000 asked_summary)))
    = length (network asked_summary) + 2.
Proof.
  assert (to_boolean (pdfPath asked_summary) = true) as H by reflexivity.
  split; [exact H|].
  destruct (double_send_with_attachment asked_summary 1000 1000 1001 1001 H)
    as [-> _].
  rewrite length_app. reflexivity.
Defined.

(** X9. A key press in the text input changes the state only when the key is
    Enter, Shift is not held and there is something to send. *)
Theorem onKeyDown_sends_iff (key : jsstring) (shiftKey : bool)
    (now date : Z) (a : App) :
  onKeyDown key shiftKey now date a ≠ a
  ↔ key = lit "Enter" ∧ shiftKey = false ∧ send_disabled a = false.
Proof.
  unfold onKeyDown. split.
  - intros H. case_decide as Hk; [|done]. destruct shiftKey; [done|].
    simpl in H. split; [done|]. split; [done|].
    destruct (send_disabled a) eqn:E; [|done].
    by apply (sendMessage_fixed_iff a now date) in E.
  - intros (-> & -> & E). rewrite decide_True by done. simpl.
    intros H. apply sendMessage_fixed_iff in H.
    unfold send_disabled in E. unfold nothing_to_send in H. congruence.
Qed.

(** ** Further properties: Attachment Uploader *)

(** X10. A PDF file is selected and, while its upload is awaited, the upload
    endpoint answers with a success whose JSON object has a string as
    [pdf_path]: the Attachment Reference becomes that string and the notice
    names the file; the store, the requests and the selected file are left
    as they were. *)
Theorem upload_success_sets_reference f a es s res fields (path : jsstring) :
  file_type f = lit "application/pdf" →
  run es (handleFileUpload (Some f) a) = Rendered s →
  is_Some (inflight s !! length (network a)) →
  ok res = true → body res = Some (JObj fields) →
  obj_lookup fields (lit "pdf_path") = Some (JStr path) →
  ∃ s',
    step (UploadSettled (length (network a)) (Resolved res)) s = Rendered s'
    ∧ pdfPath s' = JStr path
    ∧ toasts s' = toasts s ++ [toast_uploaded f]
    ∧ description (toast_uploaded f)
      = Some (file_name f ++ lit " uploaded & ready.")
    ∧ selectedFile s' = selectedFile s
    ∧ messages s' = messages s
    ∧ network s' = network s.
Proof.
  intros Hpdf Hrun Hawait Hok Hbody Hpath.
  pose proof (selected_then_awaited f a es s Hpdf Hrun Hawait) as Hk.
  eexists. simpl step. rewrite Hk.
  unfold handleFileUpload_settled, uploadPDF_settled.
  rewrite Hok, Hbody. simpl. rewrite Hpath. simpl. done.
Qed.

Lemma upload_success_sets_reference_witness :
  file_type notes_pdf = lit "application/pdf"
  ∧ ok upload_http_200 = true
  ∧ ∃ s',
      step (UploadSettled 0 (Resolved upload_http_200))
        (handleFileUpload (Some notes_pdf) mounted) = Rendered s'
      ∧ pdfPath s' = JStr (lit "/tmp/abc123.pdf").
Proof.
  assert (file_type notes_pdf = lit "application/pdf") as H1 by reflexivity.
  assert (ok upload_http_200 = true) as H4 by reflexivity.
  split; [exact H1|]. split; [exact H4|].
  destruct (upload_success_sets_reference notes_pdf mounted []
              (handleFileUpload (Some notes_pdf) mounted) upload_http_200
              [(lit "pdf_path", JStr (lit "/tmp/abc123.pdf"))]
              (lit "/tmp/abc123.pdf") H1 eq_refl)
    as (s' & Hs & Hp & _); [|exact H4|reflexivity|reflexivity|].
  - vm_compute. eexists. reflexivity.
  - exists s'. by split.
Defined.

(** X11. However an awaited upload fails to deliver a body to read a path
    from (the [fetch] rejects, the body of a 2xx response is not JSON, or it
    is JSON [null]), the outcome is that of an error status: the
    upload-error notice is shown and the Attachment Reference becomes null,
    also when an earlier upload had set it. *)
Theorem upload_rejection_resets_reference s rid f r :
  inflight s !! rid = Some (AwaitUpload f) →
  r = NetworkError
  ∨ (∃ res, r = Resolved res
       ∧ (body res = None ∨ body res = Some JNull)) →
  ∃ s',
    step (UploadSettled rid r) s = Rendered s'
    ∧ pdfPath s' = JNull
    ∧ toasts s' = toasts s ++ [toast_upload_failed]
    ∧ selectedFile s' = selectedFile s
    ∧ messages s' = messages s.
Proof.
  intros Hk Hr. eexists. simpl step. rewrite Hk.
  assert (uploadPDF_settled r = None) as E.
  { destruct Hr as [->|(res & -> & [Hb|Hb])]; [done| |];
      unfold uploadPDF_settled; rewrite Hb; by destruct (ok res). }
  unfold handleFileUpload_settled. rewrite E. done.
Qed.

Lemma upload_rejection_resets_reference_witness :
  inflight (handleFileUpload (Some notes_pdf) uploaded) !! 1
  = Some (AwaitUpload notes_pdf)
  ∧ pdfPath (handleFileUpload (Some notes_pdf) uploaded)
    = JStr (lit "/tmp/abc123.pdf")
  ∧ ∃ s',
      step (UploadSettled 1 NetworkError)
        (handleFileUpload (Some notes_pdf) uploaded) = Rendered s'
      ∧ pdfPath s' = JNull.
Proof.
  assert (inflight (handleFileUpload (Some notes_pdf) uploaded) !! 1
          = Some (AwaitUpload notes_pdf)) as H1 by (vm_compute; reflexivity).
  split; [exact H1|]. split; [reflexivity|].
  destruct (upload_rejection_resets_reference _ 1 notes_pdf NetworkError H1)
    as (s' & Hs & Hp & _); [by left|].
  exists s'. by split.
Defined.

(** X12. When the body of a successful upload response has no [pdf_path]
    field, the success notice is shown all the same, yet the Attachment
    Reference becomes [undefined]: it is falsy, so a send with a blank text
    still returns at the guard. *)
Theorem upload_success_without_path f a es s res fields :
  file_type f = lit "application/pdf" →
  run es (handleFileUpload (Some f) a) = Rendered s →
  is_Some (inflight s !! length (network a)) →
  ok res = true → body res = Some (JObj fields) →
  obj_lookup fields (lit "pdf_path") = None →
  ∃ s',
    step (UploadSettled (length (network a)) (Resolved res)) s = Rendered s'
    ∧ pdfPath s' = JUndefined
    ∧ toasts s' = toasts s ++ [toast_uploaded f]
    ∧ (trim (message s') = [] → nothing_to_send s' = true).
Proof.
  intros Hpdf Hrun Hawait Hok Hbody Hpath.
  pose proof (selected_then_awaited f a es s Hpdf Hrun Hawait) as Hk.
  eexists. simpl step. rewrite Hk.
  unfold handleFileUpload_settled, uploadPDF_settled.
  rewrite Hok, Hbody. simpl. rewrite Hpath. simpl.
  split; [done|]. split; [done|]. split; [done|].
  unfold nothing_to_send. simpl. by intros ->.
Qed.

Lemma upload_success_without_path_witness :
  file_type notes_pdf = lit "application/pdf"
  ∧ ok chat_http_200_empty = true
  ∧ ∃ s',
      step (UploadSettled 0 (Resolved chat_http_200_empty))
        (handleFileUpload (Some notes_pdf) mounted) = Rendered s'
      ∧ pdfPath s' = JUndefined.
Proof.
  assert (file_type notes_pdf = lit "application/pdf") as H1 by reflexivity.
  assert (ok chat_http_200_empty = true) as H4 by reflexivity.
  split; [exact H1|]. split; [exact H4|].
  destruct (upload_success_without_path notes_pdf mounted []
              (handleFileUpload (Some notes_pdf) mounted) chat_http_200_empty
              [] H1 eq_refl)
    as (s' & Hs & Hp & _); [|exact H4|reflexivity|reflexivity|].
  - vm_compute. eexists. reflexivity.
  - exists s'. by split.
Defined.



(** ** Further properties: what holds throughout a session *)

Lemma chat_payloads_app (l1 l2 : list Request) :
  chat_payloads (l1 ++ l2) = chat_payloads l1 ++ chat_payloads l2.
Proof.
  induction l1 as [|[p|f] l1 IH]; simpl; [done| |done]. by rewrite IH.
Qed.

Lemma contents_of_app (r : role) (l1 l2 : list Message) :
  contents_of r (l1 ++ l2) = contents_of r l1 ++ contents_of r l2.
Proof.
  induction l1 as [|m l1 IH]; simpl; [done|].
  destruct r, (msg_type m); simpl; by rewrite IH.
Qed.

(** What one event adds to the store and to the requests. *)
Lemma step_appends e a s :
  step e a = Rendered s →
  sessionId s = sessionId a
  ∧ ∃ newm new,
      messages s = messages a ++ newm
      ∧ network s = network a ++ new
      ∧ Forall (λ p, session_id p = sessionId a) (chat_payloads new)
      ∧ contents_of user newm =
        (λ p, JStr (User_message p)) <$> chat_payloads new.
Proof.
  destruct e as [v|t|file| |now date|rid r now date|rid r]; simpl; intros H.
  - injection H as <-. split; [done|]. exists [], [].
    by rewrite !app_nil_r.
  - injection H as <-. destruct t; (split; [done|]); exists [], [];
      by rewrite !app_nil_r.
  - injection H as <-. unfold handleFileUpload.
    destruct file as [f|]; [case_decide|]; (split; [done|]).
    + exists [], [UploadRequest f]. by rewrite app_nil_r.
    + exists [], []. by rewrite !app_nil_r.
    + exists [], []. by rewrite !app_nil_r.
  - injection H as <-. split; [done|]. exists [], [].
    by rewrite !app_nil_r.
  - injection H as <-. unfold sendMessage.
    destruct (nothing_to_send a); (split; [done|]).
    + exists [], []. by rewrite !app_nil_r.
    + exists [user_message now date a], [ChatRequest (sendMessage_payload a)].
      simpl. repeat split; try done. by constructor.
  - destruct (inflight a !! rid) as [[mt|f]|] eqn:E;
      try (injection H as <-; split; [done|]; exists [], [];
           by rewrite !app_nil_r).
    pose proof (sendMessage_settled_frame _ _ _ _ _ _ H)
      as (Hn & _ & _ & _ & _ & _ & Hs).
    split; [done|].
    apply sendMessage_settled_messages in H as [Hm|[reply Hm]].
    + exists [], []. by rewrite Hm, Hn, !app_nil_r.
    + exists [assistant_message now date reply mt], [].
      by rewrite Hm, Hn, !app_nil_r.
  - destruct (inflight a !! rid) as [[mt|f]|] eqn:E;
      try (injection H as <-; split; [done|]; exists [], [];
           by rewrite !app_nil_r).
    apply render_Rendered in H as ->. unfold handleFileUpload_settled.
    destruct (uploadPDF_settled r); (split; [done|]); exists [], [];
      by rewrite !app_nil_r.
Qed.

Lemma run_appends es a s :
  run es a = Rendered s →
  sessionId s = sessionId a
  ∧ ∃ newm new,
      messages s = messages a ++ newm
      ∧ network s = network a ++ new
      ∧ Forall (λ p, session_id p = sessionId a) (chat_payloads new)
      ∧ contents_of user newm =
        (λ p, JStr (User_message p)) <$> chat_payloads new.
Proof.
  revert a. induction es as [|e es IH]; simpl; intros a H.
  - injection H as <-. split; [done|]. exists [], [].
    by rewrite !app_nil_r.
  - destruct (step e a) as [a'|] eqn:E; [|discriminate].
    apply step_appends in E as (Hs1 & m1 & n1 & Hm1 & Hn1 & Hf1 & Hc1).
    apply IH in H as (Hs2 & m2 & n2 & Hm2 & Hn2 & Hf2 & Hc2).
    split; [congruence|]. exists (m1 ++ m2), (n1 ++ n2).
    rewrite Hm2, Hm1, Hn2, Hn1, <- !app_assoc.
    split; [done|]. split; [done|].
    rewrite chat_payloads_app, contents_of_app, fmap_app, Hc1, Hc2.
    split; [|done]. apply Forall_app. split; [done|].
    by rewrite <- Hs1.
Qed.

(** X14. No event removes, replaces or moves a Message: whatever happens,
    every Message keeps its position in the store, and the store never
    shrinks. *)
Theorem messages_never_change es a s :
  run es a = Rendered s →
  length (messages a) ≤ length (messages s)
  ∧ ∀ i m, messages a !! i = Some m → messages s !! i = Some m.
Proof.
  intros H. apply run_messages_prefix in H. split.
  - by apply prefix_length.
  - intros i m Hi. by eapply prefix_lookup_Some.
Qed.

Lemma messages_never_change_witness :
  run [InputChange (lit "ok"); Send 1200 1200]
    (sendMessage 1000 1000 typed_hi) = Rendered two_pending
  ∧ length (messages (sendMessage 1000 1000 typed_hi))
    ≤ length (messages two_pending).
Proof.
  assert (run [InputChange (lit "ok"); Send 1200 1200]
            (sendMessage 1000 1000 typed_hi) = Rendered two_pending) as H
    by (vm_compute; reflexivity).
  split; [exact H|].
  exact (proj1 (messages_never_change _ _ _ H)).
Defined.

(** X15. The session identifier of the component never changes, and every
    chat request issued during a session carries it as [session_id]. *)
Theorem session_id_in_every_request es sid s :
  run es (mount sid) = Rendered s →
  sessionId s = sid
  ∧ Forall (λ p, session_id p = sid) (chat_payloads (network s)).
Proof.
  intros H. apply run_appends in H as (Hs & m & n & _ & Hn & Hf & _).
  split; [done|]. by rewrite Hn.
Qed.

Lemma session_id_in_every_request_witness :
  run [InputChange (lit "hi"); Send 1000 1000;
       ChatSettled 0 (Resolved chat_http_200_hello) 1500 1500;
       InputChange (lit "ok"); Send 1501 1501]
    (mount (JStr (randomUUID 0))) = Rendered two_exchanges
  ∧ Forall (λ p, session_id p = JStr (randomUUID 0))
      (chat_payloads (network two_exchanges)).
Proof.
  assert (run [InputChange (lit "hi"); Send 1000 1000;
               ChatSettled 0 (Resolved chat_http_200_hello) 1500 1500;
               InputChange (lit "ok"); Send 1501 1501]
            (mount (JStr (randomUUID 0))) = Rendered two_exchanges) as H
    by (vm_compute; reflexivity).
  split; [exact H|].
  exact (proj2 (session_id_in_every_request _ _ _ H)).
Defined.

(** X16. Throughout a session the user Messages of the store and the chat
    requests correspond one to one, in order: the content of the k-th user
    Message is the [User_message] of the k-th chat request. *)
Theorem user_messages_match_requests es sid s :
  run es (mount sid) = Rendered s →
  contents_of user (messages s) =
  (λ p, JStr (User_message p)) <$> chat_payloads (network s).
Proof.
  intros H. apply run_appends in H as (_ & m & n & Hm & Hn & _ & Hc).
  by rewrite Hm, Hn.
Qed.

Lemma user_messages_match_requests_witness :
  run [InputChange (lit "hi"); Send 1000 1000;
       ChatSettled 0 (Resolved chat_http_200_hello) 1500 1500;
       InputChange (lit "ok"); Send 1501 1501]
    (mount (JStr (randomUUID 0))) = Rendered two_exchanges
  ∧ contents_of user (messages two_exchanges) =
    (λ p, JStr (User_message p)) <$> chat_payloads (network two_exchanges).
Proof.
  assert (run [InputChange (lit "hi"); Send 1000 1000;
               ChatSettled 0 (Resolved chat_http_200_hello) 1500 1500;
               InputChange (lit "ok"); Send 1501 1501]
            (mount (JStr (randomUUID 0))) = Rendered two_exchanges) as H
    by (vm_compute; reflexivity).
  split; [exact H|].
  exact (user_messages_match_requests _ _ _ H).
Defined.

Lemma fetch_inflight_issued r k a :
  inflight_issued a → inflight_issued (fetch r k a).
Proof.
  intros Hi rid. simpl. rewrite length_app. simpl.
  destruct (decide (length (network a) = rid)) as [<-|Hne]; [lia|].
  rewrite lookup_insert_ne by done. intros H. apply Hi in H. lia.
Qed.

Lemma fetch_awaits_chat r k a :
  inflight_issued a → awaits_chat a → awaits_chat (fetch r k a).
Proof.
  intros Hi (rid & mt & H). exists rid, mt. simpl.
  rewrite lookup_insert_ne; [done|].
  assert (rid < length (network a)) by (apply Hi; by eexists). lia.
Qed.

Lemma step_loading_justified e a s :
  step e a = Rendered s → loading_justified a → loading_justified s.
Proof.
  intros H [Hi Hl].
  destruct e as [v|t|file| |now date|rid r now date|rid r]; simpl in H.
  - by injection H as <-.
  - injection H as <-. by destruct t.
  - injection H as <-. unfold handleFileUpload.
    destruct file as [f|]; [case_decide|]; try done.
    split; [by apply fetch_inflight_issued|].
    intros Hload. apply fetch_awaits_chat; [done|]. by apply Hl.
  - by injection H as <-.
  - injection H as <-. unfold sendMessage.
    destruct (nothing_to_send a); [done|].
    split; [by apply fetch_inflight_issued|].
    intros _. exists (length (network a)), (messageType a). simpl.
    apply lookup_insert_eq.
  - destruct (inflight a !! rid) as [[mt|f]|] eqn:E;
      try (by injection H as <-).
    assert (isLoading s = false) as Hoff.
    { unfold sendMessage_settled in H. destruct r as [|res].
      - by injection H as <-.
      - destruct (body res) as [data|]; [|by injection H as <-].
        destruct (get data (lit "reply")); [|done]. by injection H as <-. }
    apply sendMessage_settled_frame in H as (Hn & Hf & _).
    split; [|by rewrite Hoff].
    intros rid'. rewrite Hf, Hn. simpl. intros [k Hk].
    apply Hi. exists k.
    destruct (decide (rid = rid')) as [->|Hne].
    + by rewrite lookup_delete_eq in Hk.
    + by rewrite lookup_delete_ne in Hk.
  - destruct (inflight a !! rid) as [[mt|f]|] eqn:E;
      try (by injection H as <-).
    apply render_Rendered in H as ->.
    assert (isLoading (handleFileUpload_settled f r (resume rid a))
            = isLoading a) as Hsame.
    { unfold handleFileUpload_settled. by destruct (uploadPDF_settled r). }
    destruct (handleFileUpload_settled_network f r (resume rid a))
      as [Hn Hf].
    split.
    + intros rid'. rewrite Hf, Hn. simpl. intros [k Hk].
      apply Hi. exists k.
      destruct (decide (rid = rid')) as [->|Hne].
      * by rewrite lookup_delete_eq in Hk.
      * by rewrite lookup_delete_ne in Hk.
    + rewrite Hsame. intros Hload.
      destruct (Hl Hload) as (rid' & mt & Hk).
      exists rid', mt. rewrite Hf. simpl.
      rewrite lookup_delete_ne; [done|]. intros ->. congruence.
Qed.

Lemma run_loading_justified es a s :
  run es a = Rendered s → loading_justified a → loading_justified s.
Proof.
  revert a. induction es as [|e es IH]; simpl; intros a H Ha.
  - by injection H as <-.
  - destruct (step e a) as [a'|] eqn:E; [|discriminate].
    apply (IH a' H). by eapply step_loading_justified.
Qed.

(** X17. Throughout a session, whenever the loading flag is up a chat
    request is still awaited; so the [...] bubble is never shown when no
    answer is outstanding. *)
Theorem loading_implies_pending es sid s :
  run es (mount sid) = Rendered s →
  loading_bubble_shown s = true → awaits_chat s.
Proof.
  intros H Hshown.
  apply run_loading_justified in H as [_ Hl].
  - apply Hl. unfold loading_bubble_shown in Hshown.
    by apply andb_true_iff in Hshown as [_ ?].
  - split; [|done]. intros rid [k Hk]. simpl in Hk.
    by rewrite lookup_empty in Hk.
Qed.

Lemma loading_implies_pending_witness :
  run [InputChange (lit "hi"); Send 1000 1000] (mount (JStr (randomUUID 0)))
  = Rendered (sendMessage 1000 1000 typed_hi)
  ∧ loading_bubble_shown (sendMessage 1000 1000 typed_hi) = true
  ∧ awaits_chat (sendMessage 1000 1000 typed_hi).
Proof.
  assert (run [InputChange (lit "hi"); Send 1000 1000]
            (mount (JStr (randomUUID 0)))
          = Rendered (sendMessage 1000 1000 typed_hi)) as H1
    by (vm_compute; reflexivity).
  assert (loading_bubble_shown (sendMessage 1000 1000 typed_hi) = true)
    as H2 by reflexivity.
  split; [exact H1|]. split; [exact H2|].
  exact (loading_implies_pending _ _ _ H1 H2).
Defined.

(** X18. The converse fails by design: when two chat requests are awaited
    and the first one settles, in whichever way, the loading flag goes down
    although the other request is still awaited. *)
Theorem reply_hides_loading_despite_pending s rid1 rid2 mt1 mt2 r now date s' :
  inflight s !! rid1 = Some (AwaitChat mt1) →
  inflight s !! rid2 = Some (AwaitChat mt2) →
  rid1 ≠ rid2 →
  step (ChatSettled rid1 r now date) s = Rendered s' →
  isLoading s' = false ∧ loading_bubble_shown s' = false
  ∧ inflight s' !! rid2 = Some (AwaitChat mt2).
Proof.
  intros H1 H2 Hne H. simpl in H. rewrite H1 in H.
  assert (isLoading s' = false) as Hoff.
  { unfold sendMessage_settled in H. destruct r as [|res].
    - by injection H as <-.
    - destruct (body res) as [data|]; [|by injection H as <-].
      destruct (get data (lit "reply")); [|done]. by injection H as <-. }
  apply sendMessage_settled_frame in H as (_ & Hf & _).
  split; [done|]. split.
  - unfold loading_bubble_shown. rewrite Hoff. apply andb_false_r.
  - rewrite Hf. simpl. by rewrite lookup_delete_ne.
Qed.

Lemma reply_hides_loading_despite_pending_witness :
  inflight two_pending !! 0 = Some (AwaitChat None)
  ∧ inflight two_pending !! 1 = Some (AwaitChat None)
  ∧ ∃ s', step (ChatSettled 0 (Resolved chat_http_200_hello) 1500 1500)
            two_pending = Rendered s'
      ∧ isLoading s' = false
      ∧ inflight s' !! 1 = Some (AwaitChat None).
Proof.
  assert (inflight two_pending !! 0 = Some (AwaitChat None)) as H1
    by (vm_compute; reflexivity).
  assert (inflight two_pending !! 1 = Some (AwaitChat None)) as H2
    by (vm_compute; reflexivity).
  split; [exact H1|]. split; [exact H2|].
  eexists. split; [vm_compute; reflexivity|].
  assert (0 ≠ 1) as Hne by lia.
  destruct (reply_hides_loading_despite_pending two_pending 0 1 None None
              (Resolved chat_http_200_hello) 1500 1500 _ H1 H2 Hne eq_refl)
    as (Hoff & _ & Hk).
  split; [exact Hoff|exact Hk].
Defined.

Lemma step_keeps_mode_unset e a s :
  mode_event e = false → step e a = Rendered s →
  messageType a = None → messageType s = None.
Proof.
  destruct e as [v|t|file| |now date|rid r now date|rid r]; simpl;
    intros Hev H Hnone; try discriminate.
  - by injection H as <-.
  - by injection H as <-.
  - injection H as <-. unfold sendMessage. by destruct (nothing_to_send a).
  - destruct (inflight a !! rid) as [[mt|f]|]; try by injection H as <-.
    apply sendMessage_settled_frame in H as (_ & _ & _ & _ & _ & -> & _).
    done.
  - destruct (inflight a !! rid) as [[mt|f]|]; try by injection H as <-.
    apply render_Rendered in H as ->. unfold handleFileUpload_settled.
    by destruct (uploadPDF_settled r).
Qed.

Lemma run_keeps_mode_unset es a s :
  Forall (λ e, mode_event e = false) es → run es a = Rendered s →
  messageType a = None → messageType s = None.
Proof.
  intros Hes. revert a.
  induction Hes as [|e es He _ IH]; simpl; intros a H Hnone.
  - by injection H as <-.
  - destruct (step e a) as [a'|] eqn:E; [|discriminate].
    apply (IH a' H). by eapply step_keeps_mode_unset.
Qed.

(** X19. The Response Mode serves one exchange: after a send that passes the
    guard, and until a suggestion tile is clicked or a file is selected, the
    mode stays unset, so the user Message of the next send carries no
    source; the answer to the first send, whenever it arrives, still carries
    the mode that was set when that send was made. *)
Theorem mode_serves_one_exchange a now date es s now' date' :
  nothing_to_send a = false →
  Forall (λ e, mode_event e = false) es →
  run es (sendMessage now date a) = Rendered s →
  messageType s = None
  ∧ source (user_message now' date' s) = None
  ∧ (is_Some (inflight s !! length (network a)) →
     inflight s !! length (network a) = Some (AwaitChat (messageType a))).
Proof.
  intros Hguard Hes Hrun.
  assert (messageType s = None) as Hnone.
  { eapply run_keeps_mode_unset; [done|done|].
    unfold sendMessage. by rewrite Hguard. }
  split; [done|]. split; [done|].
  intros Hawait.
  by destruct (sent_then_awaited a now date es s Hguard Hrun Hawait).
Qed.

Lemma mode_serves_one_exchange_witness :
  nothing_to_send (setMessageType (Some web) typed_hi) = false
  ∧ run [InputChange (lit "ok")]
      (sendMessage 1000 1000 (setMessageType (Some web) typed_hi))
    = Rendered
        (setMessage (lit "ok")
           (sendMessage 1000 1000 (setMessageType (Some web) typed_hi)))
  ∧ messageType
      (setMessage (lit "ok")
         (sendMessage 1000 1000 (setMessageType (Some web) typed_hi)))
    = None
  ∧ inflight
      (setMessage (lit "ok")
         (sendMessage 1000 1000 (setMessageType (Some web) typed_hi))) !! 0
    = Some (AwaitChat (Some web)).
Proof.
  assert (nothing_to_send (setMessageType (Some web) typed_hi) = false)
    as H1 by reflexivity.
  assert (run [InputChange (lit "ok")]
            (sendMessage 1000 1000 (setMessageType (Some web) typed_hi))
          = Rendered
              (setMessage (lit "ok")
                 (sendMessage 1000 1000
                    (setMessageType (Some web) typed_hi)))) as H2
    by reflexivity.
  split; [exact H1|]. split; [exact H2|].
  assert (Forall (λ e, mode_event e = false) [InputChange (lit "ok")])
    as H3 by (by repeat constructor).
  destruct (mode_serves_one_exchange (setMessageType (Some web) typed_hi)
              1000 1000 [InputChange (lit "ok")] _ 1000 1000 H1 H3 H2)
    as (Hnone & _ & Hk).
  split; [exact Hnone|]. apply Hk. vm_compute. eexists. reflexivity.
Defined.

(** X20. The selected-file display plays no part in sending: [sendMessage]
    commutes with [setSelectedFile], so removing the displayed file (the
    Remove button) changes neither whether a send goes out nor the
    [pdf_path] it carries. *)
Theorem send_ignores_selected_file (v : option File) (a : App)
    (now date : Z) :
  sendMessage now date (setSelectedFile v a)
  = setSelectedFile v (sendMessage now date a)
  ∧ step RemoveFile a = Rendered (setSelectedFile None a)
  ∧ nothing_to_send (setSelectedFile v a) = nothing_to_send a
  ∧ sendMessage_payload (setSelectedFile v a) = sendMessage_payload a.
Proof.
  split; [|done]. unfold sendMessage.
  change (nothing_to_send (setSelectedFile v a)) with (nothing_to_send a).
  by destruct (nothing_to_send a).
Qed.

(** ** Further properties: Message identifiers *)

Lemma lit_inj (s1 s2 : string) : lit s1 = lit s2 → s1 = s2.
Proof.
  unfold lit. intros H.
  assert (list_ascii_of_string s1 = list_ascii_of_string s2) as E.
  { revert H. generalize (list_ascii_of_string s1) (list_ascii_of_string s2).
    induction l as [|c l IH]; intros [|c' l']; simpl; intros H;
      try discriminate; [done|].
    injection H as Hc Hl. f_equal; [|by apply IH].
    by rewrite <- (ascii_N_embedding c), Hc, ascii_N_embedding. }
  by rewrite <- (string_of_list_ascii_of_string s1), E,
    string_of_list_ascii_of_string.
Qed.

Lemma Z_to_int_not_nil (n : Z) :
  Z.to_int n ≠ Decimal.Pos Decimal.Nil ∧ Z.to_int n ≠ Decimal.Neg Decimal.Nil.
Proof.
  destruct n as [|p|p]; simpl; split; try discriminate;
    intros [= H]; by apply DecimalPos.Unsigned.to_uint_nonnil in H.
Qed.

Lemma Number_toString_inj (n1 n2 : Z) :
  Number_toString n1 = Number_toString n2 → n1 = n2.
Proof.
  unfold Number_toString. intros H. apply lit_inj in H.
  apply DecimalZ.to_int_inj.
  destruct (Z_to_int_not_nil n1) as [A1 B1].
  destruct (Z_to_int_not_nil n2) as [A2 B2].
  pose proof (NilZero.isi _ A1 B1) as E1.
  pose proof (NilZero.isi _ A2 B2) as E2.
  rewrite H in E1. congruence.
Qed.

(** X21. Message identifiers are the clock readings in decimal: two user
    Messages share an identifier exactly when they were sent at the same
    reading of [Date.now()], two assistant Messages exactly when they were
    appended at the same reading, and a user Message and an assistant
    Message exactly when the user Message was sent one millisecond after the
    answer was appended. *)
Theorem message_ids_coincide_iff
    (n1 n2 d1 d2 : Z) (a1 a2 : App) (r1 r2 : jsval) (mt1 mt2 : option mode) :
  (msg_id (user_message n1 d1 a1) = msg_id (user_message n2 d2 a2)
   ↔ n1 = n2)
  ∧ (msg_id (assistant_message n1 d1 r1 mt1)
     = msg_id (assistant_message n2 d2 r2 mt2) ↔ n1 = n2)
  ∧ (msg_id (user_message n1 d1 a1)
     = msg_id (assistant_message n2 d2 r2 mt2) ↔ n1 = (n2 + 1)%Z).
Proof.
  simpl. repeat split; intros H; try (by rewrite H);
    apply Number_toString_inj in H; lia.
Qed.

(** ** Further properties: the component [Index] *)

Lemma index_sendMessage_passes mt now date s :
  Index.nothing_to_send s = false →
  Index.sendMessage mt now date s =
  {| Index.message := [];
     Index.isLoading := true;
     Index.messages :=
       Index.messages s ++
       [ {| msg_id := Number_toString now; msg_type := user;
            content := JStr (Index.message s); timestamp := date;
            source := mt |} ];
     Index.selectedFile := None;
     Index.toasts := Index.toasts s;
     Index.timers :=
       Index.timers s ++
       [ {| Index.cb_messageType := mt;
            Index.cb_message := Index.message s;
            Index.cb_selectedFile := Index.selectedFile s |} ] |}.
Proof. intros H. unfold Index.sendMessage. by rewrite H. Qed.

Lemma index_handleFileUpload_frame file s :
  Index.messages (Index.handleFileUpload file s) = Index.messages s
  ∧ Index.timers (Index.handleFileUpload file s) = Index.timers s.
Proof.
  unfold Index.handleFileUpload. destruct file as [f|]; [|done].
  by case_decide.
Qed.

Lemma index_run_cons e es s :
  Index.run (e :: es) s = Index.run es (Index.step e s).
Proof. done. Qed.

(** X22. In [Index] a second send right after a first one never sends: the
    first either returned at the guard or emptied the text and dropped the
    selected file, so the second returns at the guard. *)
Theorem index_double_send mt mt' now date now' date' (s : Index.State) :
  Index.sendMessage mt' now' date' (Index.sendMessage mt now date s)
  = Index.sendMessage mt now date s.
Proof.
  destruct (Index.nothing_to_send s) eqn:E.
  - assert (Index.sendMessage mt now date s = s) as ->.
    { unfold Index.sendMessage. by rewrite E. }
    unfold Index.sendMessage. by rewrite E.
  - rewrite (index_sendMessage_passes mt now date s E).
    reflexivity.
Qed.

(** X23. In [Index], with no timer pending, a send that passes the guard
    followed by its timer grows the store by exactly 2: the user Message
    with the text as typed, tagged [pdf] exactly when a file was selected,
    then the simulated answer, which quotes that text, names the mode and,
    if a file was selected, the file; the text and the selected file are
    cleared and the loading flag is down again. *)
Theorem index_send_then_answer (s : Index.State) now date now' date' :
  Index.nothing_to_send s = false → Index.timers s = [] →
  let cb := {| Index.cb_messageType := Index.send_argument s;
               Index.cb_message := Index.message s;
               Index.cb_selectedFile := Index.selectedFile s |} in
  let s' := Index.run [Index.Send now date; Index.TimerFired now' date'] s in
  (∃ u r, Index.messages s' = Index.messages s ++ [u; r]
          ∧ Index.answers cb u r)
  ∧ (Index.cb_messageType cb = Some pdf ↔ is_Some (Index.selectedFile s))
  ∧ (Index.cb_messageType cb = None ↔ Index.selectedFile s = None)
  ∧ Index.message s' = [] ∧ Index.selectedFile s' = None
  ∧ Index.isLoading s' = false ∧ Index.timers s' = []
  ∧ Index.toasts s' = Index.toasts s.
Proof.
  intros Hguard Hq cb s'.
  assert (s' = Index.timeout cb now' date'
                 {| Index.message := []; Index.isLoading := true;
                    Index.messages :=
                      Index.messages s ++
                      [ {| msg_id := Number_toString now; msg_type := user;
                           content := JStr (Index.message s);
                           timestamp := date;
                           source := Index.send_argument s |} ];
                    Index.selectedFile := None;
                    Index.toasts := Index.toasts s;
                    Index.timers := [] |}) as ->.
  { unfold s'.
    change (Index.run [Index.Send now date; Index.TimerFired now' date'] s)
      with (Index.step (Index.TimerFired now' date')
              (Index.sendMessage (Index.send_argument s) now date s)).
    rewrite (index_sendMessage_passes _ now date s Hguard), Hq.
    reflexivity. }
  simpl. split.
  - eexists _, _. rewrite <- app_assoc. split; [done|].
    by unfold Index.answers.
  - unfold Index.send_argument.
    destruct (Index.selectedFile s) as [f|]; repeat split; try done;
      try (intros [? ?]; done); by eexists.
Qed.

Lemma index_send_then_answer_witness :
  Index.nothing_to_send
    (Index.setSelectedFile (Some notes_pdf) Index.mount) = false
  ∧ Index.timers (Index.setSelectedFile (Some notes_pdf) Index.mount) = []
  ∧ contents_of assistant
      (Index.messages
         (Index.run [Index.Send 1000 1000; Index.TimerFired 2200 2200]
            (Index.setSelectedFile (Some notes_pdf) Index.mount)))
    = [JStr (lit "Here's a response (pdf) to " ++ [34; 34]%N
             ++ lit " with file notes.pdf.")].
Proof.
  assert (Index.nothing_to_send
            (Index.setSelectedFile (Some notes_pdf) Index.mount) = false)
    as H1 by reflexivity.
  assert (Index.timers (Index.setSelectedFile (Some notes_pdf) Index.mount)
          = []) as H2 by reflexivity.
  split; [exact H1|]. split; [exact H2|].
  destruct (index_send_then_answer _ 1000 1000 2200 2200 H1 H2)
    as [(u & r & -> & Hu & _ & _ & Hr & Hc & _) _].
  simpl. rewrite Hu, Hr, Hc. reflexivity.
Defined.

(** In [Index], the answers given so far and the timers still pending
    account for the user Messages, in order. *)
Lemma index_step_in_order e s fired :
  contents_of user (Index.messages s) =
    (λ cb, JStr (Index.cb_message cb)) <$> (fired ++ Index.timers s) →
  contents_of assistant (Index.messages s) =
    (λ cb, JStr (Index.reply_text cb)) <$> fired →
  ∃ fired',
    contents_of user (Index.messages (Index.step e s)) =
      (λ cb, JStr (Index.cb_message cb))
        <$> (fired' ++ Index.timers (Index.step e s))
    ∧ contents_of assistant (Index.messages (Index.step e s)) =
      (λ cb, JStr (Index.reply_text cb)) <$> fired'.
Proof.
  intros Hu Ha.
  destruct e as [v|file| |now date|now date]; simpl.
  - by exists fired.
  - exists fired.
    by destruct (index_handleFileUpload_frame file s) as [-> ->].
  - by exists fired.
  - exists fired. destruct (Index.nothing_to_send s) eqn:E.
    + unfold Index.sendMessage. by rewrite E.
    + rewrite (index_sendMessage_passes _ now date s E). simpl.
      rewrite !contents_of_app, Hu, Ha. simpl.
      split; [|by rewrite app_nil_r].
      by rewrite (app_assoc fired), (fmap_app _ (fired ++ Index.timers s)).
  - destruct (Index.timers s) as [|cb rest] eqn:Eq.
    + exists fired. by rewrite Eq.
    + exists (fired ++ [cb]). simpl.
      rewrite !contents_of_app, Hu, Ha. simpl.
      split; [|by rewrite fmap_app].
      by rewrite app_nil_r, <- (app_assoc fired).
Qed.

(** X24. In [Index] the answers come in the order of the questions: at any
    point of a session, the k-th assistant Message is the simulated answer
    to the k-th user Message and quotes its text, and the user Messages not
    answered yet are those of the pending timers, in order. *)
Theorem index_answers_in_order (es : list Index.Event) :
  let s := Index.run es Index.mount in
  ∃ fired,
    contents_of user (Index.messages s) =
      (λ cb, JStr (Index.cb_message cb)) <$> (fired ++ Index.timers s)
    ∧ contents_of assistant (Index.messages s) =
      (λ cb, JStr (Index.reply_text cb)) <$> fired.
Proof.
  simpl.
  assert (∀ s fired,
            contents_of user (Index.messages s) =
              (λ cb, JStr (Index.cb_message cb))
                <$> (fired ++ Index.timers s) →
            contents_of assistant (Index.messages s) =
              (λ cb, JStr (Index.reply_text cb)) <$> fired →
            ∃ fired',
              contents_of user (Index.messages (Index.run es s)) =
                (λ cb, JStr (Index.cb_message cb))
                  <$> (fired' ++ Index.timers (Index.run es s))
              ∧ contents_of assistant (Index.messages (Index.run es s)) =
                (λ cb, JStr (Index.reply_text cb)) <$> fired') as Hgen.
  { induction es as [|e es IH]; intros s fired Hu Ha.
    - by exists fired.
    - rewrite index_run_cons.
      destruct (index_step_in_order e s fired Hu Ha) as (fired' & Hu' & Ha').
      by apply (IH _ fired'). }
  by apply (Hgen Index.mount []).
Qed.

(** X25. [Index] never tags a Message with the modes [web] or [llm]: every
    Message of the store has no source or the source [pdf]. *)
Theorem index_sources_pdf_only (es : list Index.Event) :
  Forall (λ m, source m = None ∨ source m = Some pdf)
    (Index.messages (Index.run es Index.mount)).
Proof.
  assert (∀ s,
            Forall (λ m, source m = None ∨ source m = Some pdf)
              (Index.messages s) →
            Forall (λ cb, Index.cb_messageType cb = None
                          ∨ Index.cb_messageType cb = Some pdf)
              (Index.timers s) →
            Forall (λ m, source m = None ∨ source m = Some pdf)
              (Index.messages (Index.run es s))) as Hgen.
  { induction es as [|e es IH]; intros s Hm Ht; [done|].
    rewrite index_run_cons. apply IH.
    - destruct e as [v|file| |now date|now date]; simpl; try done.
      + by rewrite (proj1 (index_handleFileUpload_frame file s)).
      + destruct (Index.nothing_to_send s) eqn:E.
        * unfold Index.sendMessage. by rewrite E.
        * rewrite (index_sendMessage_passes _ now date s E). simpl.
          apply Forall_app. split; [done|]. constructor; [|done]. simpl.
          unfold Index.send_argument.
          destruct (Index.selectedFile s); auto.
      + destruct (Index.timers s) as [|cb rest] eqn:Eq; [done|]. simpl.
        apply Forall_app. split; [done|]. constructor; [|done]. simpl.
        by apply Forall_cons in Ht as [? _].
    - destruct e as [v|file| |now date|now date]; simpl; try done.
      + by rewrite (proj2 (index_handleFileUpload_frame file s)).
      + destruct (Index.nothing_to_send s) eqn:E.
        * unfold Index.sendMessage. by rewrite E.
        * rewrite (index_sendMessage_passes _ now date s E). simpl.
          apply Forall_app. split; [done|]. constructor; [|done]. simpl.
          unfold Index.send_argument.
          destruct (Index.selectedFile s); auto.
      + destruct (Index.timers s) as [|cb rest] eqn:Eq; [by rewrite Eq|].
        simpl. by apply Forall_cons in Ht as [_ ?]. }
  by apply Hgen.
Qed.

(** ** Further properties: accounting for the exchanges *)

Lemma count_awaited_chats_insert_above m n n' k :
  n' ≤ n →
  count_awaited_chats (<[n := k]> m) n' = count_awaited_chats m n'.
Proof.
  induction n' as [|j IH]; simpl; intros Hle; [done|].
  rewrite IH by lia. by rewrite lookup_insert_ne by lia.
Qed.

Lemma count_awaited_chats_delete m n rid :
  count_awaited_chats m n =
  count_awaited_chats (delete rid m) n
  + match m !! rid with
    | Some (AwaitChat _) => if decide (rid < n) then 1 else 0
    | _ => 0
    end.
Proof.
  induction n as [|j IH]; simpl.
  - destruct (m !! rid) as [[?|?]|]; simpl; try lia.
  - rewrite IH. destruct (decide (rid = j)) as [->|Hne].
    + rewrite lookup_delete_eq.
      destruct (m !! j) as [[?|?]|]; simpl; try lia.
      rewrite decide_False by lia. rewrite decide_True by lia. lia.
    + rewrite lookup_delete_ne by done.
      destruct (m !! rid) as [[?|?]|]; simpl; try lia.
      destruct (decide (rid < j)), (decide (rid < S j)); lia.
Qed.

Lemma count_failed_sends_app ts t :
  count_failed_sends (ts ++ [t]) =
  count_failed_sends ts + (if decide (t = toast_send_failed) then 1 else 0).
Proof. induction ts as [|t' ts IH]; simpl; [lia|]. rewrite IH. lia. Qed.

Lemma resume_inflight_issued rid a :
  inflight_issued a → inflight_issued (resume rid a).
Proof.
  intros Hi rid'. simpl. intros [k Hk]. apply Hi. exists k.
  destruct (decide (rid = rid')) as [->|Hne].
  - by rewrite lookup_delete_eq in Hk.
  - by rewrite lookup_delete_ne in Hk.
Qed.

Lemma step_exchanges_accounted e a s :
  step e a = Rendered s → exchanges_accounted a → exchanges_accounted s.
Proof.
  intros H [Hi Hc].
  destruct e as [v|t|file| |now date|rid r now date|rid r]; simpl in H.
  - by injection H as <-.
  - injection H as <-. by destruct t.
  - injection H as <-. unfold handleFileUpload.
    destruct file as [f|]; [case_decide|].
    + split; [by apply fetch_inflight_issued|]. simpl.
      replace (length (network a ++ [UploadRequest f]))
        with (S (length (network a))) by (rewrite length_app; simpl; lia).
      cbn [count_awaited_chats].
      rewrite count_awaited_chats_insert_above by lia.
      rewrite lookup_insert_eq, chat_payloads_app. simpl.
      rewrite app_nil_r. lia.
    + split; [done|]. simpl. rewrite count_failed_sends_app.
      rewrite decide_False by discriminate. lia.
    + split; [done|]. simpl. rewrite count_failed_sends_app.
      rewrite decide_False by discriminate. lia.
  - by injection H as <-.
  - injection H as <-. unfold sendMessage.
    destruct (nothing_to_send a); [done|].
    split; [by apply fetch_inflight_issued|]. simpl.
    rewrite contents_of_app, (length_app (contents_of _ _)). simpl.
    replace (length (network a ++ [ChatRequest (sendMessage_payload a)]))
      with (S (length (network a))) by (rewrite length_app; simpl; lia).
    cbn [count_awaited_chats].
    rewrite count_awaited_chats_insert_above by lia.
    rewrite lookup_insert_eq, chat_payloads_app, length_app. simpl. lia.
  - destruct (inflight a !! rid) as [[mt|f]|] eqn:E;
      try (by injection H as <-).
    assert (rid < length (network a)) as Hlt by (apply Hi; by eexists).
    pose proof (count_awaited_chats_delete (inflight a)
                  (length (network a)) rid) as Hd.
    rewrite E, decide_True in Hd by done.
    pose proof (sendMessage_settled_frame _ _ _ _ _ _ H)
      as (Hn & Hf & _).
    split.
    { intros rid'. rewrite Hf, Hn. by apply resume_inflight_issued. }
    rewrite Hf, Hn. simpl.
    unfold sendMessage_settled in H. destruct r as [|res].
    + injection H as <-. simpl. rewrite count_failed_sends_app.
      rewrite decide_True by done. lia.
    + destruct (body res) as [data|].
      * destruct (get data (lit "reply")) as [reply|]; [|done].
        injection H as <-. simpl.
        rewrite contents_of_app, length_app. simpl. lia.
      * injection H as <-. simpl. rewrite count_failed_sends_app.
        rewrite decide_True by done. lia.
  - destruct (inflight a !! rid) as [[mt|f]|] eqn:E;
      try (by injection H as <-).
    apply render_Rendered in H as ->.
    pose proof (count_awaited_chats_delete (inflight a)
                  (length (network a)) rid) as Hd.
    rewrite E in Hd.
    destruct (handleFileUpload_settled_network f r (resume rid a))
      as [Hn Hf].
    split.
    { intros rid'. rewrite Hf, Hn. by apply resume_inflight_issued. }
    rewrite Hf, Hn, handleFileUpload_settled_messages. simpl.
    unfold handleFileUpload_settled.
    destruct (uploadPDF_settled r); simpl; rewrite count_failed_sends_app;
      rewrite decide_False by discriminate; lia.
Qed.

Lemma run_exchanges_accounted es a s :
  run es a = Rendered s → exchanges_accounted a → exchanges_accounted s.
Proof.
  revert a. induction es as [|e es IH]; simpl; intros a H Ha.
  - by injection H as <-.
  - destruct (step e a) as [a'|] eqn:E; [|discriminate].
    apply (IH a' H). by eapply step_exchanges_accounted.
Qed.

(** X26. Throughout a session every user Message is accounted for exactly
    once: the number of user Messages equals the number of assistant
    Messages plus the number of chat requests still awaited plus the number
    of failed-send notices. In particular the assistant Messages never
    outnumber the user Messages. *)
Theorem every_send_accounted es sid s :
  run es (mount sid) = Rendered s →
  length (contents_of user (messages s))
  = length (contents_of assistant (messages s))
    + count_awaited_chats (inflight s) (length (network s))
    + count_failed_sends (toasts s)
  ∧ length (contents_of assistant (messages s))
    ≤ length (contents_of user (messages s)).
Proof.
  intros H.
  pose proof (run_appends _ _ _ H) as (_ & m & n & Hm & Hn & _ & Hc).
  assert (length (contents_of user (messages s))
          = length (chat_payloads (network s))) as Hu.
  { rewrite Hm, Hn. simpl. by rewrite Hc, length_fmap. }
  apply run_exchanges_accounted in H as [_ Hacc].
  - rewrite Hu. lia.
  - split; [|done]. intros rid [k Hk]. simpl in Hk.
    by rewrite lookup_empty in Hk.
Qed.

Lemma every_send_accounted_witness :
  run [InputChange (lit "hi"); Send 1000 1000;
       ChatSettled 0 (Resolved chat_http_200_hello) 1500 1500;
       InputChange (lit "ok"); Send 1501 1501]
    (mount (JStr (randomUUID 0))) = Rendered two_exchanges
  ∧ length (contents_of user (messages two_exchanges)) = 2
  ∧ length (contents_of assistant (messages two_exchanges))
    ≤ length (contents_of user (messages two_exchanges)).
Proof.
  assert (run [InputChange (lit "hi"); Send 1000 1000;
               ChatSettled 0 (Resolved chat_http_200_hello) 1500 1500;
               InputChange (lit "ok"); Send 1501 1501]
            (mount (JStr (randomUUID 0))) = Rendered two_exchanges) as H
    by (vm_compute; reflexivity).
  split; [exact H|]. split; [reflexivity|].
  exact (proj2 (every_send_accounted _ _ _ H)).
Defined.

(** X27. The session identifier that a mounted component puts in its chat
    requests is the non-empty string that [localStorage] holds under
    [chat_session_id] once the component is mounted. *)
Theorem mounted_session_is_stored entropy ls es s :
  run es (mount_with entropy ls).1 = Rendered s →
  ∃ sid : jsstring,
    sid ≠ []
    ∧ items (mount_with entropy ls).2 !! chat_session_id = Some sid
    ∧ sessionId s = JStr sid
    ∧ Forall (λ p, session_id p = JStr sid) (chat_payloads (network s)).
Proof.
  unfold mount_with. intros H.
  destruct (getOrCreateSessionId_cases entropy ls)
    as [(sid & Hget & Hne & E) | (_ & E)]; rewrite E in H |- *;
    cbn [fst snd] in H |- *.
  - exists sid. split; [done|]. split; [done|].
    apply run_appends in H as (Hs & m & n & _ & Hn & Hf & _).
    split; [done|]. by rewrite Hn.
  - exists (randomUUID entropy). split.
    { intros E'. pose proof (randomUUID_length entropy) as L.
      by rewrite E' in L. }
    split; [apply lookup_insert_eq|].
    apply run_appends in H as (Hs & m & n & _ & Hn & Hf & _).
    split; [done|]. by rewrite Hn.
Qed.

Lemma mounted_session_is_stored_witness :
  run [InputChange (lit "hi"); Send 1000 1000]
    (mount_with 0 fresh_storage).1
  = Rendered (sendMessage 1000 1000 typed_hi)
  ∧ ∃ sid : jsstring,
      items (mount_with 0 fresh_storage).2 !! chat_session_id = Some sid
      ∧ Forall (λ p, session_id p = JStr sid)
          (chat_payloads (network (sendMessage 1000 1000 typed_hi))).
Proof.
  assert (run [InputChange (lit "hi"); Send 1000 1000]
            (mount_with 0 fresh_storage).1
          = Rendered (sendMessage 1000 1000 typed_hi)) as H
    by (vm_compute; reflexivity).
  split; [exact H|].
  destruct (mounted_session_is_stored 0 fresh_storage _ _ H)
    as (sid & _ & Hst & _ & Hall).
  exists sid. by split.
Defined.

(** ** Further properties: rendering the Attachment Reference *)

(** X28. A PDF file is selected and, while its upload is awaited, the upload
    endpoint answers with a success whose [pdf_path] is a JSON object (or an
    array that holds one): [setPdfPath] stores it, the top bar's
    [SessionID-{pdfPath}] cannot render it, and the render throws; no state
    is rendered any more, whatever events follow. *)
Theorem upload_object_path_breaks_render f a es s res fields path later :
  file_type f = lit "application/pdf" →
  run es (handleFileUpload (Some f) a) = Rendered s →
  is_Some (inflight s !! length (network a)) →
  ok res = true → body res = Some (JObj fields) →
  obj_lookup fields (lit "pdf_path") = Some path →
  renderable path = false →
  step (UploadSettled (length (network a)) (Resolved res)) s = RenderError
  ∧ run (UploadSettled (length (network a)) (Resolved res) :: later) s
    = RenderError.
Proof.
  intros Hpdf Hrun Hawait Hok Hbody Hpath Hbad.
  pose proof (selected_then_awaited f a es s Hpdf Hrun Hawait) as Hk.
  assert (step (UploadSettled (length (network a)) (Resolved res)) s
          = RenderError) as E.
  { simpl step. rewrite Hk.
    unfold handleFileUpload_settled, uploadPDF_settled.
    rewrite Hok, Hbody. simpl. rewrite Hpath. simpl.
    unfold render. simpl. by rewrite Hbad. }
  split; [done|]. cbn [run]. by rewrite E.
Qed.

Lemma upload_object_path_breaks_render_witness :
  file_type notes_pdf = lit "application/pdf"
  ∧ ok upload_http_200_object = true
  ∧ renderable (JObj [(lit "path", JStr (lit "/tmp/abc123.pdf"))]) = false
  ∧ step (UploadSettled 0 (Resolved upload_http_200_object))
      (handleFileUpload (Some notes_pdf) mounted) = RenderError.
Proof.
  assert (file_type notes_pdf = lit "application/pdf") as H1 by reflexivity.
  assert (ok upload_http_200_object = true) as H4 by reflexivity.
  assert (renderable (JObj [(lit "path", JStr (lit "/tmp/abc123.pdf"))])
          = false) as H7 by reflexivity.
  split; [exact H1|]. split; [exact H4|]. split; [exact H7|].
  refine (proj1 (upload_object_path_breaks_render notes_pdf mounted []
                   (handleFileUpload (Some notes_pdf) mounted)
                   upload_http_200_object
                   [(lit "pdf_path",
                     JObj [(lit "path", JStr (lit "/tmp/abc123.pdf"))])]
                   (JObj [(lit "path", JStr (lit "/tmp/abc123.pdf"))]) []
                   H1 eq_refl _ H4 eq_refl eq_refl H7)).
  vm_compute. eexists. reflexivity.
Defined.
